(** * run_scrape: a shallow embedding of src/scrape/run_scrape.py

    The scraper fetches listing pages and a search API, pulls an embedded
    JSON object out of the page markup and projects it through a fixed table
    of JMESPath expressions.

    Modelling conventions.
    - A Python [str] is a [string]; one [ascii] stands for one code point
      below 256.
    - A decoded JSON document (and any Python value the scraper handles) is a
      [json]; [None] is [JNull]; a [dict] is an association list in insertion
      order.
    - A Python function that may print or raise is a computation in the monad
      [M]: it threads the lines written to standard output and returns either
      an exception or a value.
    - The third-party functions whose implementation is not part of the
      repository ([json.loads], the HTML parser behind [parsel.Selector],
      [str.upper]) are the fields of the class [Library]; every theorem holds
      for every instance.  The remote site is a function [Net] from URL to
      fetch outcome, and the order in which concurrently dispatched requests
      complete is an explicit schedule. *)

From Stdlib Require Import String Ascii List ZArith NArith Lia Bool Arith.
From Stdlib Require Import Permutation.
From Stdlib Require Decimal DecimalString DecimalPos DecimalN.
Import ListNotations.
Open Scope string_scope.
Open Scope list_scope.

Set Warnings "-register-all".

(** ** Strings *)

Module Str.

(** [str.isspace] on one code point below 256. *)
Definition isspace (c : ascii) : bool :=
  let n := N_of_ascii c in
  (((9 <=? n) && (n <=? 13)) || ((28 <=? n) && (n <=? 32))
   || (n =? 133) || (n =? 160))%N.

Definition isdigit (c : ascii) : bool :=
  let n := N_of_ascii c in ((48 <=? n) && (n <=? 57))%N.

Definition digit_value (c : ascii) : N := (N_of_ascii c - 48)%N.

Fixpoint lstrip (p : ascii -> bool) (s : string) : string :=
  match s with
  | EmptyString => EmptyString
  | String c s' => if p c then lstrip p s' else s
  end.

Fixpoint rstrip (p : ascii -> bool) (s : string) : string :=
  match s with
  | EmptyString => EmptyString
  | String c s' =>
      match rstrip p s' with
      | EmptyString => if p c then EmptyString else String c EmptyString
      | r => String c r
      end
  end.

(** [s.strip()] is [strip isspace s]; [s.strip('/')] is
    [strip (Ascii.eqb "/") s]. *)
Definition strip (p : ascii -> bool) (s : string) : string :=
  rstrip p (lstrip p s).

Fixpoint drop (n : nat) (s : string) : string :=
  match n, s with
  | O, _ => s
  | S _, EmptyString => EmptyString
  | S n', String _ s' => drop n' s'
  end.

(** [sub in s], also XPath's [contains(s, sub)]. *)
Fixpoint contains (sub s : string) : bool :=
  prefix sub s
  || match s with
     | EmptyString => false
     | String _ s' => contains sub s'
     end.

(** [s.split(sep, 1)] for a non-empty separator. *)
Fixpoint split1 (sep s : string) : list string :=
  if prefix sep s then [EmptyString; drop (String.length sep) s]
  else match s with
       | EmptyString => [EmptyString]
       | String c s' =>
           match split1 sep s' with
           | h :: t => String c h :: t
           | [] => [s]
           end
       end.

(** [s.replace(old, new)] for a one-character [old]. *)
Fixpoint replace (old : ascii) (new : string) (s : string) : string :=
  match s with
  | EmptyString => EmptyString
  | String c s' =>
      if Ascii.eqb c old then new ++ replace old new s'
      else String c (replace old new s')
  end%string.

(** The digits of [int(...)]'s argument: decimal digits, with single
    underscores allowed between two digits. *)
Fixpoint int_digits (acc : N) (after_digit : bool) (s : string) : option N :=
  match s with
  | EmptyString => if after_digit then Some acc else None
  | String c s' =>
      if isdigit c then int_digits (10 * acc + digit_value c)%N true s'
      else if Ascii.eqb c "_" && after_digit then int_digits acc false s'
      else None
  end.

(** The white space [int] skips around its argument, on one code point
    below 256: the ASCII white space and the two Latin-1 spaces.  It is not
    [str.isspace]: the separators U+001C to U+001F are refused. *)
Definition int_space (c : ascii) : bool :=
  let n := N_of_ascii c in
  (((9 <=? n) && (n <=? 13)) || (n =? 32) || (n =? 133) || (n =? 160))%N.

(** [int(s)] in base ten: surrounding white space is ignored, one sign is
    accepted.  [None] stands for [ValueError].  (CPython's configurable cap
    on the number of digits is a resource limit and is not modelled.) *)
Definition int (s : string) : option Z :=
  match strip int_space s with
  | String sign body as digits =>
      if Ascii.eqb sign "-"
      then option_map (fun n => (- Z.of_N n)%Z) (int_digits 0 false body)
      else if Ascii.eqb sign "+"
      then option_map Z.of_N (int_digits 0 false body)
      else option_map Z.of_N (int_digits 0 false digits)
  | EmptyString => None
  end.

(** [str(n)] for a natural number and for an integer. *)
Definition of_N (n : N) : string := DecimalString.NilZero.string_of_uint (N.to_uint n).

Definition of_Z (z : Z) : string :=
  match z with
  | Zneg p => String "-" (of_N (Npos p))
  | _ => of_N (Z.to_N z)
  end.

Fixpoint enumerate {A : Type} (start : nat) (l : list A) : list (nat * A) :=
  match l with
  | [] => []
  | x :: l' => (start, x) :: enumerate (S start) l'
  end.

End Str.

(** ** Python values, exceptions and effects *)

Module Py.

(** What [json.loads] returns; [JNull] is also Python's [None]. *)
Inductive json : Type :=
| JNull
| JBool (b : bool)
| JInt (z : Z)
| JFloat (literal : string)
| JStr (s : string)
| JArr (items : list json)
| JObj (members : list (string * json)).

(** [d.get(k)] and [d[k] = v] on an insertion-ordered [dict]. *)
Fixpoint dict_get {V : Type} (k : string) (d : list (string * V)) : option V :=
  match d with
  | [] => None
  | (k', v) :: d' => if String.eqb k k' then Some v else dict_get k d'
  end.

Fixpoint dict_set {V : Type} (k : string) (v : V) (d : list (string * V))
  : list (string * V) :=
  match d with
  | [] => [(k, v)]
  | (k', v') :: d' =>
      if String.eqb k k' then (k', v) :: d' else (k', v') :: dict_set k v d'
  end.

Definition keys {V : Type} (d : list (string * V)) : list string := map fst d.

Inductive exn : Type :=
| HTTPError          (* the fetch failed: connection, timeout, protocol *)
| JSONDecodeError    (* json.loads *)
| JMESPathError      (* jmespath: the expression does not compile *)
| KeyError (key : string)
| TypeError
| AttributeError
| IndexError
| ValueError.

(** A computation: the lines printed so far go in, the lines printed and the
    outcome come out. *)
Definition M (A : Type) : Type := list string -> list string * (exn + A).

Definition ret {A : Type} (a : A) : M A := fun out => (out, inr a).

Definition raise {A : Type} (e : exn) : M A := fun out => (out, inl e).

Definition bind {A B : Type} (c : M A) (k : A -> M B) : M B :=
  fun out =>
    match c out with
    | (out', inr a) => k a out'
    | (out', inl e) => (out', inl e)
    end.

Definition print (line : string) : M unit := fun out => (out ++ [line], inr tt).

(** [await] on the outcome of a request. *)
Definition await {A : Type} (outcome : exn + A) : M A :=
  match outcome with
  | inr a => ret a
  | inl e => raise e
  end.

Definition of_option {A : Type} (e : exn) (o : option A) : M A :=
  match o with
  | Some a => ret a
  | None => raise e
  end.

(** [for x in xs: acc = body(acc, x)] *)
Fixpoint for_each {A S : Type} (xs : list A) (body : S -> A -> M S) (acc : S)
  : M S :=
  match xs with
  | [] => ret acc
  | x :: xs' => bind (body acc x) (for_each xs' body)
  end.

(** [obj[key]] for a string key. *)
Definition getitem (obj : json) (key : string) : M json :=
  match obj with
  | JObj d => of_option (KeyError key) (dict_get key d)
  | _ => raise TypeError
  end.

(** The elements [iter(x)] yields. *)
Definition iterate (x : json) : M (list json) :=
  match x with
  | JArr xs => ret xs
  | JObj d => ret (map JStr (keys d))
  | JStr s => ret (map (fun c => JStr (String c EmptyString)) (list_ascii_of_string s))
  | _ => raise TypeError
  end.

(** An [httpx.Response], as far as the scraper reads it. *)
Record Response : Type := { url : string; text : string; content : string }.

(** [asyncio.as_completed]: the awaitables in the order in which they
    complete.  [order] lists positions of [aws]; it is a schedule of [aws]
    when it is a permutation of all positions. *)
Definition as_completed {A : Type} (order : list nat) (aws : list A) : list A :=
  flat_map (fun i => match nth_error aws i with
                     | Some a => [a]
                     | None => []
                     end) order.

Definition schedule (n : nat) (order : list nat) : Prop :=
  Permutation order (seq 0 n).

End Py.

Import Py.

Declare Scope py_scope.
Delimit Scope py_scope with py.
Notation "x <- c ;; k" := (bind c (fun x => k))
  (at level 61, c at next level, right associativity) : py_scope.
Notation "c ;;; k" := (bind c (fun _ => k))
  (at level 61, right associativity) : py_scope.
Open Scope py_scope.

(** The library functions the scraper calls and the repository does not
    define. *)
Class Library : Type := {
  (** [json.loads]; [None] is [json.JSONDecodeError]. *)
  json_loads : string -> option json;
  (** [parsel.Selector(text)]: the text of each [script] element of the
      document, in document order. *)
  script_texts : string -> list string;
  (** [str.upper]. *)
  str_upper : string -> string
}.

(** The remote site: what [client.get(url)] resolves to. *)
Definition Net : Type := string -> exn + Response.

(** ** JMESPath

    The fragment of the expression language that [parse_map] uses: field
    names, dotted sub-expressions, the list wildcard [[*]] and multi-select
    hashes [{key: expr, ...}].  The lexer and the precedence-climbing parser
    follow the library's; an expression outside the fragment is refused like
    a syntax error. *)

Module JMESPath.

Inductive token : Type :=
| TIdent (name : string)
| TDot | TStar | TLBracket | TRBracket | TLBrace | TRBrace | TColon | TComma
| TEof.

Definition is_start_identifier (c : ascii) : bool :=
  let n := N_of_ascii c in
  (((65 <=? n) && (n <=? 90)) || ((97 <=? n) && (n <=? 122)) || (n =? 95))%N.

Definition is_valid_identifier (c : ascii) : bool :=
  is_start_identifier c || Str.isdigit c.

Definition is_whitespace (c : ascii) : bool :=
  let n := N_of_ascii c in ((n =? 32) || (n =? 9) || (n =? 10) || (n =? 13))%N.

Definition simple_token (c : ascii) : option token :=
  match c with
  | "."%char => Some TDot
  | "*"%char => Some TStar
  | "["%char => Some TLBracket
  | "]"%char => Some TRBracket
  | "{"%char => Some TLBrace
  | "}"%char => Some TRBrace
  | ":"%char => Some TColon
  | ","%char => Some TComma
  | _ => None
  end.

Definition flush (ident : option string) (ts : list token) : list token :=
  match ident with
  | Some name => TIdent name :: ts
  | None => ts
  end.

(** [ident] is the identifier being read, if any. *)
Fixpoint tokenize (ident : option string) (s : string) : option (list token) :=
  match s with
  | EmptyString => Some (flush ident [TEof])
  | String c s' =>
      match ident with
      | Some name =>
          if is_valid_identifier c
          then tokenize (Some (name ++ String c EmptyString)%string) s'
          else option_map (flush ident)
                 (if is_whitespace c then tokenize None s'
                  else match simple_token c, s' with
                       | Some TLBracket, String "]" _ => None
                       | Some TLBracket, String "?" _ => None
                       | Some t, _ => option_map (cons t) (tokenize None s')
                       | None, _ => None
                       end)
      | None =>
          if is_start_identifier c
          then tokenize (Some (String c EmptyString)) s'
          else if is_whitespace c then tokenize None s'
          else match simple_token c, s' with
               | Some TLBracket, String "]" _ => None
               | Some TLBracket, String "?" _ => None
               | Some t, _ => option_map (cons t) (tokenize None s')
               | None, _ => None
               end
      end
  end.

(** The syntax tree, with the library's node names. *)
Inductive expr : Type :=
| Identity
| Field (name : string)
| Subexpression (children : list expr)
| Projection (lhs rhs : expr)
| MultiSelectDict (pairs : list (string * expr)).

Definition binding_power (t : token) : nat :=
  match t with
  | TStar => 20
  | TDot => 40
  | TLBrace => 50
  | TLBracket => 55
  | _ => 0
  end.

Definition ParseResult : Type := option (expr * list token).

(** [_expression], its loop over the left-denotation tokens,
    [_parse_dot_rhs], [_parse_projection_rhs] and
    [_parse_multi_select_hash]. *)
Fixpoint expression (fuel : nat) (bp : nat) (ts : list token) : ParseResult :=
  match fuel with
  | O => None
  | S fuel' =>
      match ts with
      | TIdent name :: ts1 => led_loop fuel' bp (Field name) ts1
      | TLBrace :: ts1 =>
          match multi_select_hash fuel' [] ts1 with
          | Some (lhs, ts2) => led_loop fuel' bp lhs ts2
          | None => None
          end
      | _ => None
      end
  end
with led_loop (fuel : nat) (bp : nat) (lhs : expr) (ts : list token)
  : ParseResult :=
  match fuel with
  | O => None
  | S fuel' =>
      match ts with
      | [] => None
      | t :: ts1 =>
          if (bp <? binding_power t)%nat then
            match t with
            | TDot =>
                match ts1 with
                | TStar :: _ => None
                | _ =>
                    match dot_rhs fuel' 40 ts1 with
                    | Some (rhs, ts2) =>
                        led_loop fuel' bp
                          (match lhs with
                           | Subexpression cs => Subexpression (cs ++ [rhs])
                           | _ => Subexpression [lhs; rhs]
                           end) ts2
                    | None => None
                    end
                end
            | TLBracket =>
                match ts1 with
                | TStar :: TRBracket :: ts2 =>
                    match projection_rhs fuel' 20 ts2 with
                    | Some (rhs, ts3) =>
                        led_loop fuel' bp (Projection lhs rhs) ts3
                    | None => None
                    end
                | _ => None
                end
            | _ => None
            end
          else Some (lhs, ts)
      end
  end
with dot_rhs (fuel : nat) (bp : nat) (ts : list token) : ParseResult :=
  match fuel with
  | O => None
  | S fuel' =>
      match ts with
      | TIdent _ :: _ => expression fuel' bp ts
      | TLBrace :: ts1 => multi_select_hash fuel' [] ts1
      | _ => None
      end
  end
with projection_rhs (fuel : nat) (bp : nat) (ts : list token) : ParseResult :=
  match fuel with
  | O => None
  | S fuel' =>
      match ts with
      | [] => None
      | t :: ts1 =>
          if (binding_power t <? 10)%nat then Some (Identity, ts)
          else match t with
               | TLBracket => expression fuel' bp ts
               | TDot => dot_rhs fuel' bp ts1
               | _ => None
               end
      end
  end
with multi_select_hash (fuel : nat) (pairs : list (string * expr))
       (ts : list token) : ParseResult :=
  match fuel with
  | O => None
  | S fuel' =>
      match ts with
      | TIdent key :: TColon :: ts1 =>
          match expression fuel' 0 ts1 with
          | Some (value, ts2) =>
              let pairs' := pairs ++ [(key, value)] in
              match ts2 with
              | TComma :: ts3 => multi_select_hash fuel' pairs' ts3
              | TRBrace :: ts3 => Some (MultiSelectDict pairs', ts3)
              | _ => multi_select_hash fuel' pairs' ts2
              end
          | None => None
          end
      | _ => None
      end
  end.

(** [jmespath.compile]; [None] is a lexer or parser error. *)
Definition compile (expression_text : string) : option expr :=
  match tokenize None expression_text with
  | Some ts =>
      match expression (3 * List.length ts) 0 ts with
      | Some (parsed, [TEof]) => Some parsed
      | _ => None
      end
  | None => None
  end.

Definition is_null (v : json) : bool :=
  match v with
  | JNull => true
  | _ => false
  end.

(** The tree interpreter: [visit_field], [visit_subexpression],
    [visit_projection], [visit_multi_select_dict]. *)
Fixpoint visit (node : expr) (value : json) : json :=
  match node with
  | Identity => value
  | Field name =>
      match value with
      | JObj d =>
          match dict_get name d with
          | Some v => v
          | None => JNull
          end
      | _ => JNull
      end
  | Subexpression children =>
      fold_left (fun result child => visit child result) children value
  | Projection lhs rhs =>
      match visit lhs value with
      | JArr base =>
          JArr (filter (fun current => negb (is_null current))
                  (map (visit rhs) base))
      | _ => JNull
      end
  | MultiSelectDict pairs =>
      match value with
      | JNull => JNull
      | _ =>
          JObj (fold_left
                  (fun collected kv =>
                     dict_set (fst kv) (visit (snd kv) value) collected)
                  pairs [])
      end
  end.

(** Induction on syntax trees, through the lists of children. *)
Section Induction.

Variable P : expr -> Prop.
Hypothesis identity_case : P Identity.
Hypothesis field_case : forall name, P (Field name).
Hypothesis subexpression_case :
  forall children, Forall P children -> P (Subexpression children).
Hypothesis projection_case :
  forall lhs rhs, P lhs -> P rhs -> P (Projection lhs rhs).
Hypothesis multi_select_case :
  forall pairs, Forall (fun kv => P (snd kv)) pairs -> P (MultiSelectDict pairs).

Fixpoint expr_induction (node : expr) : P node :=
  match node with
  | Identity => identity_case
  | Field name => field_case name
  | Subexpression children =>
      subexpression_case children
        ((fix all (cs : list expr) : Forall P cs :=
            match cs with
            | [] => Forall_nil P
            | c :: cs' => Forall_cons (P := P) c (expr_induction c) (all cs')
            end) children)
  | Projection lhs rhs =>
      projection_case lhs rhs (expr_induction lhs) (expr_induction rhs)
  | MultiSelectDict pairs =>
      multi_select_case pairs
        ((fix all (ps : list (string * expr))
           : Forall (fun kv => P (snd kv)) ps :=
            match ps with
            | [] => Forall_nil _
            | (key, child) :: ps' =>
                Forall_cons (P := fun kv => P (snd kv)) (key, child)
                  (expr_induction child) (all ps')
            end) pairs)
  end.

End Induction.

(** [jmespath.search(expression, data)]. *)
Definition search (expression_text : string) (data : json) : M json :=
  match compile expression_text with
  | Some parsed => ret (visit parsed data)
  | None => raise JMESPathError
  end.

End JMESPath.

(** ** The scraper *)

Section Scraper.

Context {lib : Library}.

(** *** parse_property *)

(** Output field name, JMESPath expression; in the order of the source. *)
Definition parse_map : list (string * string) :=
  [
    ("id", "id");
    ("available", "status.published");
    ("archived", "status.archived");
    ("phone", "contactInfo.telephoneNumbers.localNumber");
    ("bedrooms", "bedrooms");
    ("bathrooms", "bathrooms");
    ("type", "transactionType");
    ("property_type", "propertySubType");
    ("tags", "tags");
    ("description", "text.description");
    ("title", "text.pageTitle");
    ("subtitle", "text.propertyPhrase");
    ("price", "prices.primaryPrice");
    ("price_sqft", "prices.pricePerSqFt");
    ("address", "address");
    ("latitude", "location.latitude");
    ("longitude", "location.longitude");
    ("features", "keyFeatures");
    ("history", "listingHistory");
    ("photos", "images[*].{url: url, caption: caption}");
    ("floorplans", "floorplans[*].{url: url, caption: caption}");
    ("agency", "customer.{
            id: branchId, 
            branch: branchName, 
            company: companyName, 
            address: displayAddress, 
            commercial: commercial, 
            buildToRent: buildToRent,
            isNew: isNewHomeDeveloper
        }");
    ("industryAffiliations", "industryAffiliations[*].name");
    ("nearest_airports", "nearestAirports[*].{name: name, distance: distance}");
    ("nearest_stations", "nearestStations[*].{name: name, distance: distance}");
    ("sizings", "sizings[*].{unit: unit, min: minimumSize, max: maximumSize}");
    ("brochures", "brochures")
  ].

Definition PropertyResult : Type := list (string * json).

Definition parse_property (data : json) : M PropertyResult :=
  for_each parse_map
    (fun results item =>
       let (key, path) := item : string * string in
       value <- JMESPath.search path data ;;
       ret (dict_set key value results))
    [].

(** *** extract_property *)

Definition marker : string := "PAGE_MODEL = ".

(** [selector.xpath("//script[contains(.,'PAGE_MODEL = ')]/text()").get()]:
    the text of the first script element whose text contains the marker. *)
Definition xpath_get (html : string) : option string :=
  find (Str.contains marker) (script_texts html).

Definition not_a_listing (response : Response) : M json :=
  print ("page " ++ url response ++ " is not a property listing page")%string ;;;
  ret JNull.

Definition extract_property (response : Response) : M json :=
  match xpath_get (text response) with
  | None => not_a_listing response
  | Some EmptyString => not_a_listing response
  | Some data =>
      data1 <- of_option IndexError (nth_error (Str.split1 marker data) 1) ;;
      data2 <- of_option JSONDecodeError
                 (json_loads (Str.strip Str.isspace data1)) ;;
      getitem data2 "propertyData"
  end.

(** *** scrape_properties

    [order] is the order in which the requests of [to_scrape] complete;
    [scrape_step] is the body of the loop. *)
Definition scrape_step (properties : list PropertyResult)
           (response : exn + Response) : M (list PropertyResult) :=
  response <- await response ;;
  data <- extract_property response ;;
  record <- parse_property data ;;
  ret (properties ++ [record]).

Definition scrape_properties (net : Net) (order : list nat) (urls : list string)
  : M (list PropertyResult) :=
  let to_scrape := map net urls in
  for_each (as_completed order to_scrape) scrape_step [].

(** *** find_locations *)

Definition tokenize_query (query : string) : string :=
  String.concat ""
    (map (fun ic : nat * ascii =>
            String (snd ic) (if Nat.eqb (fst ic mod 2) 0 then "/" else ""))
       (Str.enumerate 1 (list_ascii_of_string (str_upper query)))).

(** The path segment put into the type-ahead URL. *)
Definition tokenized_path (query : string) : string :=
  Str.strip (Ascii.eqb "/") (tokenize_query query).

Definition typeahead_url (query : string) : string :=
  ("https://www.rightmove.co.uk/typeAhead/uknostreet/"
     ++ tokenized_path query ++ "/")%string.

Definition find_locations (net : Net) (query : string) : M (list json) :=
  response <- await (net (typeahead_url query)) ;;
  data <- of_option JSONDecodeError (json_loads (text response)) ;;
  locations <- getitem data "typeAheadLocations" ;;
  predictions <- iterate locations ;;
  for_each predictions
    (fun ids prediction =>
       id <- getitem prediction "locationIdentifier" ;;
       ret (ids ++ [id]))
    [].

(** *** scrape_search *)

Definition RESULTS_PER_PAGE : Z := 24.

Definition max_api_results : Z := 1000.

Definition hex_digit (n : N) : ascii :=
  match String.get (N.to_nat n) "0123456789ABCDEF" with
  | Some c => c
  | None => "0"%char
  end.

Definition percent_byte (b : N) : string :=
  String "%" (String (hex_digit (b / 16)) (String (hex_digit (b mod 16)) "")).

(** [urllib.parse.quote_plus] on one character (UTF-8 for code points from
    128). *)
Definition quote_plus_char (c : ascii) : string :=
  let n := N_of_ascii c in
  if JMESPath.is_valid_identifier c
     || (n =? 46)%N || (n =? 45)%N || (n =? 126)%N
  then String c ""
  else if (n =? 32)%N then "+"
  else if (n <? 128)%N then percent_byte n
  else (percent_byte (192 + n / 64) ++ percent_byte (128 + n mod 64))%string.

Definition quote_plus (s : string) : string :=
  String.concat "" (map quote_plus_char (list_ascii_of_string s)).

Definition urlencode (params : list (string * string)) : string :=
  String.concat "&"
    (map (fun kv => (quote_plus (fst kv) ++ "=" ++ quote_plus (snd kv))%string)
       params).

Definition make_url (location_id : string) (offset : Z) : string :=
  ("https://www.rightmove.co.uk/api/_search?"
     ++ urlencode
          [ ("areaSizeUnit", "sqft");
            ("channel", "BUY");
            ("currencyCode", "GBP");
            ("includeSSTC", "false");
            ("index", Str.of_Z offset);
            ("isFetching", "false");
            ("locationIdentifier", location_id);
            ("numberOfPropertiesPerPage", Str.of_Z RESULTS_PER_PAGE);
            ("radius", "0.0");
            ("sortType", "6");
            ("viewType", "LIST") ])%string.

(** [range(start, stop, step)] for a positive step. *)
Definition range (start stop step : Z) : list Z :=
  map (fun i => start + Z.of_nat i * step)%Z
    (seq 0 (Z.to_nat ((stop - start + step - 1) / step))).

(** The loop that fills [other_pages], as the offsets it keeps: it leaves
    at the first offset that reaches [max_api_results]. *)
Fixpoint offsets_until_limit (offsets : list Z) : list Z :=
  match offsets with
  | [] => []
  | offset :: rest =>
      if (offset >=? max_api_results)%Z then []
      else offset :: offsets_until_limit rest
  end.

Definition other_page_offsets (total_results : Z) : list Z :=
  offsets_until_limit (range RESULTS_PER_PAGE total_results RESULTS_PER_PAGE).

(** Every offset [scrape_search] requests: page 0, then the others. *)
Definition requested_offsets (total_results : Z) : list Z :=
  0%Z :: other_page_offsets total_results.

(** [int(first_page_data['resultCount'].replace(',', ''))] *)
Definition parse_result_count (result_count : json) : M Z :=
  match result_count with
  | JStr s => of_option ValueError (Str.int (Str.replace "," "" s))
  | _ => raise AttributeError
  end.

(** [results.extend(data['properties'])] *)
Definition extend (results data : json) : M json :=
  match results with
  | JArr items =>
      properties <- getitem data "properties" ;;
      more <- iterate properties ;;
      ret (JArr (items ++ more))
  | _ => raise AttributeError
  end.

(** The second loop, which merges the later pages as they complete, and
    its body. *)
Definition merge_step (results : json) (response : exn + Response) : M json :=
  response <- await response ;;
  data <- of_option JSONDecodeError (json_loads (text response)) ;;
  extend results data.

Definition merge_other_pages (completed : list (exn + Response)) (results : json)
  : M json :=
  for_each completed merge_step results.

Definition scrape_search (net : Net) (order : list nat) (location_id : string)
  : M json :=
  first_page <- await (net (make_url location_id 0)) ;;
  first_page_data <- of_option JSONDecodeError (json_loads (content first_page)) ;;
  result_count <- getitem first_page_data "resultCount" ;;
  total_results <- parse_result_count result_count ;;
  results <- getitem first_page_data "properties" ;;
  let other_pages :=
    map (fun offset => net (make_url location_id offset))
      (other_page_offsets total_results) in
  merge_other_pages (as_completed order other_pages) results.

End Scraper.

(** ** Properties the specification names *)

Module Spec.

(** The groups the specification describes: two characters each, the last
    one alone when the length is odd. *)
Fixpoint chunks2 (s : string) : list string :=
  match s with
  | String a (String b rest) => String a (String b "") :: chunks2 rest
  | String a EmptyString => [String a ""]
  | EmptyString => []
  end.

(** The tokenization as the specification words it. *)
Definition tokenization {lib : Library} (query : string) : string :=
  String.concat "/" (chunks2 (str_upper query)).

Definition begins_with (c : ascii) (s : string) : bool :=
  match s with
  | String a _ => Ascii.eqb a c
  | EmptyString => false
  end.

Fixpoint ends_with (c : ascii) (s : string) : bool :=
  match s with
  | EmptyString => false
  | String a EmptyString => Ascii.eqb a c
  | String _ rest => ends_with c rest
  end.

(** A comma after every third digit, counted from the right; the argument
    is the digit sequence reversed. *)
Fixpoint group3 (reversed : list ascii) : list ascii :=
  match reversed with
  | a :: b :: c :: (_ :: _) as rest => a :: b :: c :: ","%char :: group3 rest
  | _ => reversed
  end.

(** A count written with thousands separators, as in ["1,234"]. *)
Definition thousands (n : N) : string :=
  string_of_list_ascii
    (rev (group3 (rev (list_ascii_of_string (Str.of_N n))))).

(** The offsets the specification describes. *)
Definition offset_in_bounds (total offset : Z) : Prop :=
  (0 <= offset /\ offset mod 24 = 0 /\ offset < total /\ offset < 1000)%Z.

(** A query path resolves against a value when every step of it finds
    something to step into: a field finds its key in an object, a wildcard
    finds a list, a multi-select finds a value other than null. *)
Fixpoint resolves (node : JMESPath.expr) (value : json) : bool :=
  match node with
  | JMESPath.Identity => true
  | JMESPath.Field name =>
      match value with
      | JObj d =>
          match dict_get name d with
          | Some _ => true
          | None => false
          end
      | _ => false
      end
  | JMESPath.Subexpression children =>
      (fix steps (cs : list JMESPath.expr) (v : json) : bool :=
         match cs with
         | [] => true
         | c :: cs' => resolves c v && steps cs' (JMESPath.visit c v)
         end) children value
  | JMESPath.Projection lhs _ =>
      resolves lhs value
      && match JMESPath.visit lhs value with
         | JArr _ => true
         | _ => false
         end
  | JMESPath.MultiSelectDict _ => negb (JMESPath.is_null value)
  end.

(** [parse_map] with every expression compiled. *)
Definition parsed_map : list (string * JMESPath.expr) :=
  Eval vm_compute in
    flat_map (fun kv : string * string =>
                match JMESPath.compile (snd kv) with
                | Some e => [(fst kv, e)]
                | None => []
                end) parse_map.

(** The record of a listing: every field, in table order. *)
Definition project (data : json) : PropertyResult :=
  map (fun kv => (fst kv, JMESPath.visit (snd kv) data)) parsed_map.

Definition null_record : PropertyResult :=
  map (fun kv : string * string => (fst kv, JNull)) parse_map.

Section Pages.

Context {lib : Library}.

(** The page has a script element whose text contains the marker. *)
Definition has_marker (response : Response) : bool :=
  existsb (Str.contains marker) (script_texts (text response)).

(** The text that follows the marker, trimmed. *)
Definition page_model (response : Response) : option string :=
  match xpath_get (text response) with
  | Some script =>
      option_map (Str.strip Str.isspace)
        (nth_error (Str.split1 marker script) 1)
  | None => None
  end.

(** The page embeds a JSON object whose key [propertyData] holds [data]. *)
Definition embeds (response : Response) (data : json) : Prop :=
  exists source members,
    page_model response = Some source
    /\ json_loads source = Some (JObj members)
    /\ dict_get "propertyData" members = Some data.

(** A page a batch can digest: if it has the marker, it embeds property
    data. *)
Definition digestible (response : Response) : Prop :=
  has_marker response = true -> exists data, embeds response data.

(** The marker is there and what follows it is not JSON. *)
Definition undecodable (response : Response) : Prop :=
  exists source,
    page_model response = Some source /\ json_loads source = None.

(** The record a page contributes to a batch. *)
Definition contributes (response : Response) (record : PropertyResult) : Prop :=
  (has_marker response = false /\ record = null_record)
  \/ (exists data, embeds response data /\ record = project data).

(** The page is a JSON object whose key [properties] holds the list
    [items]. *)
Definition lists (response : Response) (items : list json) : Prop :=
  exists members,
    json_loads (text response) = Some (JObj members)
    /\ dict_get "properties" members = Some (JArr items).

Definition diagnostic (response : Response) : string :=
  ("page " ++ url response ++ " is not a property listing page")%string.

End Pages.

End Spec.

(** ** A sample library and a sample site

    One instance of [Library] and one [Net], small enough to run: an ASCII
    [upper], a scanner for [<script>] elements, and a decoder for a subset of
    JSON (objects, arrays, strings without escapes, integers, [true], [false],
    [null]).  They serve the concrete runs below; no general statement depends
    on them. *)

Module Sample.

Definition upper_char (c : ascii) : ascii :=
  let n := N_of_ascii c in
  if ((97 <=? n) && (n <=? 122))%N then ascii_of_N (n - 32) else c.

Fixpoint upper (s : string) : string :=
  match s with
  | EmptyString => EmptyString
  | String c s' => String (upper_char c) (upper s')
  end.

Fixpoint scripts (fuel : nat) (html : string) : list string :=
  match fuel with
  | O => []
  | S fuel' =>
      match Str.split1 "<script>" html with
      | [_; rest] =>
          match Str.split1 "</script>" rest with
          | [body; rest'] => body :: scripts fuel' rest'
          | _ => [rest]
          end
      | _ => []
      end
  end.

Definition dquote : ascii := ascii_of_nat 34.

(** [s] between double quotes. *)
Definition q (s : string) : string :=
  String dquote (s ++ String dquote "")%string.

Definition skip_ws (s : string) : string := Str.lstrip JMESPath.is_whitespace s.

(** The characters up to the closing quote, and what follows it. *)
Fixpoint read_string (s : string) : option (string * string) :=
  match s with
  | EmptyString => None
  | String c s' =>
      if Ascii.eqb c dquote then Some (EmptyString, s')
      else if Ascii.eqb c "\" then None
      else match read_string s' with
           | Some (body, rest) => Some (String c body, rest)
           | None => None
           end
  end.

Fixpoint read_digits (acc : N) (s : string) : N * string :=
  match s with
  | String c s' =>
      if Str.isdigit c then read_digits (10 * acc + Str.digit_value c) s'
      else (acc, s)
  | EmptyString => (acc, s)
  end.

Definition read_number (s : string) : option (json * string) :=
  match s with
  | String "-" (String c _ as digits) =>
      if Str.isdigit c
      then let (n, rest) := read_digits 0 digits in Some (JInt (- Z.of_N n), rest)
      else None
  | String c _ =>
      if Str.isdigit c
      then let (n, rest) := read_digits 0 s in Some (JInt (Z.of_N n), rest)
      else None
  | EmptyString => None
  end.

Fixpoint value (fuel : nat) (s : string) : option (json * string) :=
  match fuel with
  | O => None
  | S fuel' =>
      match skip_ws s with
      | String "{" s1 =>
          match skip_ws s1 with
          | String "}" s2 => Some (JObj [], s2)
          | _ => members fuel' [] s1
          end
      | String "[" s1 =>
          match skip_ws s1 with
          | String "]" s2 => Some (JArr [], s2)
          | _ => elements fuel' [] s1
          end
      | String c s1 as s0 =>
          if Ascii.eqb c dquote then
            match read_string s1 with
            | Some (body, rest) => Some (JStr body, rest)
            | None => None
            end
          else if prefix "true" s0 then Some (JBool true, Str.drop 4 s0)
          else if prefix "false" s0 then Some (JBool false, Str.drop 5 s0)
          else if prefix "null" s0 then Some (JNull, Str.drop 4 s0)
          else read_number s0
      | EmptyString => None
      end
  end
with members (fuel : nat) (acc : list (string * json)) (s : string)
  : option (json * string) :=
  match fuel with
  | O => None
  | S fuel' =>
      match skip_ws s with
      | String c s1 =>
          if Ascii.eqb c dquote then
            match read_string s1 with
            | Some (key, s2) =>
                match skip_ws s2 with
                | String ":" s3 =>
                    match value fuel' s3 with
                    | Some (v, s4) =>
                        match skip_ws s4 with
                        | String "," s5 => members fuel' (dict_set key v acc) s5
                        | String "}" s5 => Some (JObj (dict_set key v acc), s5)
                        | _ => None
                        end
                    | None => None
                    end
                | _ => None
                end
            | None => None
            end
          else None
      | EmptyString => None
      end
  end
with elements (fuel : nat) (acc : list json) (s : string)
  : option (json * string) :=
  match fuel with
  | O => None
  | S fuel' =>
      match value fuel' s with
      | Some (v, s1) =>
          match skip_ws s1 with
          | String "," s2 => elements fuel' (acc ++ [v]) s2
          | String "]" s2 => Some (JArr (acc ++ [v]), s2)
          | _ => None
          end
      | None => None
      end
  end.

Definition loads (s : string) : option json :=
  match value (2 * String.length s + 2) s with
  | Some (v, rest) =>
      match skip_ws rest with
      | EmptyString => Some v
      | _ => None
      end
  | None => None
  end.

Definition library : Library :=
  {| json_loads := loads;
     script_texts := fun html => scripts (String.length html) html;
     str_upper := upper |}.

(** Three listing pages: a listing, a page without the marker, a page whose
    embedded text breaks off. *)
Definition listing_json : string :=
  ("{" ++ q "propertyData" ++ ": {" ++ q "id" ++ ": 7, "
       ++ q "status" ++ ": {" ++ q "published" ++ ": true}, "
       ++ q "images" ++ ": [{" ++ q "url" ++ ": " ++ q "a.jpg" ++ "}, 3]}}")%string.

Definition html_with (script : string) : string :=
  ("<html><head><script>var x = 1;</script><script>"
     ++ script ++ "</script></head><body></body></html>")%string.

Definition page (u body : string) : Response :=
  {| url := u; text := body; content := body |}.

Definition listing_url : string := "https://www.rightmove.co.uk/properties/1#/".
Definition other_url : string := "https://www.rightmove.co.uk/properties/2#/".
Definition broken_url : string := "https://www.rightmove.co.uk/properties/3#/".

Definition listing_page : Response :=
  page listing_url (html_with ("window.PAGE_MODEL = " ++ listing_json ++ " ")).

Definition other_page : Response :=
  page other_url (html_with "window.adInfo = {}").

Definition broken_page : Response :=
  page broken_url (html_with "window.PAGE_MODEL = {").

(** A search of three pages. *)
Definition region : string := "REGION^61294".

Definition summary (id : Z) : json := JObj [("id", JInt id)].

Definition search_json (count : string) (ids : list Z) : string :=
  ("{" ++ q "resultCount" ++ ": " ++ q count ++ ", " ++ q "properties" ++ ": ["
       ++ String.concat ", "
            (map (fun id => "{" ++ q "id" ++ ": " ++ Str.of_Z id ++ "}") ids)
       ++ "]}")%string.

Definition search_site (count : string) : Net :=
  fun u =>
    if String.eqb u (make_url region 0)
    then inr (page u (search_json count [1; 2]%Z))
    else if String.eqb u (make_url region 24)
    then inr (page u (search_json count [3]%Z))
    else if String.eqb u (make_url region 48)
    then inr (page u (search_json count [4; 5]%Z))
    else inl HTTPError.

Definition site : Net :=
  fun u =>
    if String.eqb u listing_url then inr listing_page
    else if String.eqb u other_url then inr other_page
    else if String.eqb u broken_url then inr broken_page
    else search_site "50" u.

End Sample.

(** ** run_save

    The end-to-end driver, up to the rows it hands to [pandas]: the banner,
    the lookup of the location, the search, and one single-URL batch per
    search result.  Building the [DataFrame] and writing the CSV file are
    outside the model, and so is the progress bar [tqdm] draws on standard
    error.  [repr] stands for the text [str()] gives a float, a list or a
    dict. *)

Section Driver.

Context {lib : Library}.

Variable repr : json -> string.

(** [str(value)], also what [format] and [urlencode] make of a value. *)
Definition py_str (value : json) : string :=
  match value with
  | JStr s => s
  | JInt z => Str.of_Z z
  | JBool true => "True"
  | JBool false => "False"
  | JNull => "None"
  | _ => repr value
  end.

(** [os.path.join(a, b)] on a POSIX system. *)
Definition path_join (a b : string) : string :=
  if prefix "/" b then b
  else if String.eqb a "" || Spec.ends_with "/" a then (a ++ b)%string
  else (a ++ "/" ++ b)%string.

Definition banner (name : string) : string :=
  ("running rightmove scrape and saving results to "
     ++ path_join "results" (name ++ ".csv") ++ " directory")%string.

(** ["https://www.rightmove.co.uk/properties/{}#/".format(ad['id'])] *)
Definition property_url (id : json) : string :=
  ("https://www.rightmove.co.uk/properties/" ++ py_str id ++ "#/")%string.

(** The body of the loop over the search results.  A batch of one request has
    one completion order. *)
Definition feature_step (net : Net) (feature_list : list PropertyResult)
           (ad : json) : M (list PropertyResult) :=
  id <- getitem ad "id" ;;
  property1 <- scrape_properties net [0] [property_url id] ;;
  first <- of_option IndexError (nth_error property1 0) ;;
  ret (feature_list ++ [first]).

(** [argv] is [sys.argv]; [order] is the completion order of the later search
    pages. *)
Definition run_save_rows (argv : list string) (net : Net) (order : list nat)
  : M (list PropertyResult) :=
  name <- of_option IndexError (nth_error argv 1) ;;
  print (banner name) ;;;
  locations <- find_locations net name ;;
  location_id <- of_option IndexError (nth_error locations 0) ;;
  location_results <- scrape_search net order (py_str location_id) ;;
  ads <- iterate location_results ;;
  for_each ads (feature_step net) [].

End Driver.

(** ** More properties of the code *)

Module Props.

(** Nested [dict] lookups along a list of names, null where one is missing. *)
Fixpoint get_path (names : list string) (data : json) : json :=
  match names with
  | [] => data
  | name :: rest =>
      match data with
      | JObj d =>
          match dict_get name d with
          | Some v => get_path rest v
          | None => JNull
          end
      | _ => JNull
      end
  end.

(** The syntax tree of the dotted path [a.b.c]. *)
Definition dotted (names : list string) : JMESPath.expr :=
  match names with
  | [name] => JMESPath.Field name
  | _ => JMESPath.Subexpression (map JMESPath.Field names)
  end.

(** Null, or a list of objects that each have exactly the keys [ks]. *)
Definition reshaped (ks : list string) (value : json) : Prop :=
  value = JNull
  \/ exists items,
       value = JArr items
       /\ Forall (fun item => exists d, item = JObj d /\ keys d = ks) items.

(** Null, or a list without a null in it. *)
Definition null_free (value : json) : Prop :=
  value = JNull
  \/ exists items, value = JArr items /\ Forall (fun item => item <> JNull) items.

Definition is_object (value : json) : bool :=
  match value with
  | JObj _ => true
  | _ => false
  end.

Fixpoint count_char (c : ascii) (s : string) : nat :=
  match s with
  | EmptyString => 0
  | String a rest => (if Ascii.eqb a c then 1 else 0) + count_char c rest
  end.

Fixpoint all_chars (p : ascii -> bool) (s : string) : bool :=
  match s with
  | EmptyString => true
  | String a rest => p a && all_chars p rest
  end.

(** How many pages a search of [total] declared results fetches. *)
Definition page_count (total : Z) : Z :=
  Z.max 1 (Z.min 42 ((total + 23) / 24)).

(** A prediction of the type-ahead response and the identifier it carries. *)
Definition identifies (prediction id : json) : Prop :=
  exists d, prediction = JObj d /\ dict_get "locationIdentifier" d = Some id.

Section Rows.

Context {lib : Library}.

Variable repr : json -> string.

(** A search result and the row [run_save] makes of it. *)
Definition row_of (net : Net) (ad : json) (row : PropertyResult) : Prop :=
  exists d id page,
    ad = JObj d
    /\ dict_get "id" d = Some id
    /\ net (property_url repr id) = inr page
    /\ Spec.contributes page row.

(** A search result whose listing page can be fetched and digested. *)
Definition listed (net : Net) (ad : json) : Prop :=
  exists d id page,
    ad = JObj d
    /\ dict_get "id" d = Some id
    /\ net (property_url repr id) = inr page
    /\ Spec.digestible page.

End Rows.

End Props.

(** A sample run: the type-ahead answer for one query, a search of two
    results, and their listing pages. *)

Module SampleRun.

Definition repr (value : json) : string := "".

Definition typeahead_json : string :=
  ("{" ++ Sample.q "typeAheadLocations" ++ ": [{"
       ++ Sample.q "locationIdentifier" ++ ": " ++ Sample.q Sample.region
       ++ "}, {" ++ Sample.q "locationIdentifier" ++ ": "
       ++ Sample.q "REGION^1" ++ "}]}")%string.

Definition site : Net :=
  fun u =>
    if String.eqb u (typeahead_url (lib := Sample.library) "cornwall")
    then inr (Sample.page u typeahead_json)
    else if String.eqb u Sample.listing_url then inr Sample.listing_page
    else if String.eqb u Sample.other_url then inr Sample.other_page
    else Sample.search_site "2" u.

End SampleRun.

(** ** The expression cache of jmespath

    [jmespath.search] compiles its expression through [Parser.parse], which
    keeps what it has compiled in a cache shared by the whole process and,
    when the cache outgrows [MAX_SIZE], drops half of its entries at random.
    This cache is the one piece of state [parse_property] reads and writes.
    [Rng] and [sample] stand for the state of Python's [random] module and
    for [random.sample]. *)

Module Parser.

(** [d.pop(key, None)] *)
Definition dict_pop {V : Type} (key : string) (d : list (string * V))
  : list (string * V) :=
  filter (fun kv => negb (String.eqb key (fst kv))) d.

Definition MAX_SIZE : nat := 128.

(** Every cached entry is what compiling its expression gives: true of the
    empty cache and kept by [parse], the only writer. *)
Definition coherent (entries : list (string * JMESPath.expr)) : Prop :=
  forall expression cached,
    dict_get expression entries = Some cached ->
    JMESPath.compile expression = Some cached.

Section Cache.

Variable Rng : Type.

Variable sample : Rng -> list string -> nat -> list string * Rng.

Record state : Type := { cache : list (string * JMESPath.expr); rng : Rng }.

(** A computation over the parser's state. *)
Definition P (A : Type) : Type := state -> state * (exn + A).

Definition free_cache_entries (s : state) : state :=
  let (victims, rng') := sample (rng s) (keys (cache s)) (MAX_SIZE / 2) in
  {| cache := fold_left (fun entries key => dict_pop key entries) victims (cache s);
     rng := rng' |}.

(** [Parser.parse] *)
Definition parse (expression : string) : P JMESPath.expr :=
  fun s =>
    match dict_get expression (cache s) with
    | Some cached => (s, inr cached)
    | None =>
        match JMESPath.compile expression with
        | Some parsed =>
            let s1 := {| cache := dict_set expression parsed (cache s);
                         rng := rng s |} in
            (if (MAX_SIZE <? List.length (cache s1))%nat
             then free_cache_entries s1 else s1,
             inr parsed)
        | None => (s, inl JMESPathError)
        end
    end.

(** [jmespath.search(expression, data)], with the cache. *)
Definition search_with_cache (expression : string) (data : json) : P json :=
  fun s =>
    match parse expression s with
    | (s', inr parsed) => (s', inr (JMESPath.visit parsed data))
    | (s', inl e) => (s', inl e)
    end.

(** The loop of [parse_property] over the rows of the table still to do. *)
Fixpoint project_rows (rows : list (string * string)) (data : json)
         (results : PropertyResult) (s : state) {struct rows}
  : state * (exn + PropertyResult) :=
  match rows with
  | [] => (s, inr results)
  | (key, path) :: rest =>
      match search_with_cache path data s with
      | (s', inr value) => project_rows rest data (dict_set key value results) s'
      | (s', inl e) => (s', inl e)
      end
  end.

(** [parse_property], with the cache. *)
Definition parse_property_with_cache (data : json) : P PropertyResult :=
  project_rows parse_map data [].

End Cache.

Arguments Build_state {Rng}.
Arguments cache {Rng}.
Arguments rng {Rng}.
Arguments free_cache_entries {Rng}.
Arguments parse {Rng}.
Arguments search_with_cache {Rng}.
Arguments project_rows {Rng}.
Arguments parse_property_with_cache {Rng}.

End Parser.

(** The lines a batch prints for the pages it completes, in their order: the
    diagnostic of every page without the marker. *)
Definition printed_diagnostics {lib : Library} (completed : list Response)
  : list string :=
  flat_map (fun response =>
              if Spec.has_marker response then []
              else [Spec.diagnostic response]) completed.

(** * Proofs *)

(** ** The definitions, run on small inputs *)

Example contains_marker :
  Str.contains marker "window.PAGE_MODEL = {}" = true
  /\ Str.contains marker "window.adInfo = {}" = false.
Proof. split; reflexivity. Qed.

Example split1_marker :
  Str.split1 marker "window.PAGE_MODEL = {} " = ["window."; "{} "]
  /\ Str.split1 marker "window.adInfo" = ["window.adInfo"].
Proof. split; reflexivity. Qed.

Example int_examples :
  Str.int (Str.replace "," "" " 1,234,567 ") = Some 1234567%Z
  /\ Str.int "-1_2" = Some (-12)%Z
  /\ Str.int "1__2" = None
  /\ Str.int "" = None
  /\ Str.int "12a" = None
  /\ Str.int (String (ascii_of_nat 9) "48 ") = Some 48%Z
  /\ Str.int (String "4" (String "8" (String (ascii_of_nat 31) ""))) = None.
Proof. repeat split. Qed.

Example compile_examples :
  JMESPath.compile "images[*].{url: url, caption: caption}"
  = Some (JMESPath.Projection (JMESPath.Field "images")
            (JMESPath.MultiSelectDict
               [("url", JMESPath.Field "url"); ("caption", JMESPath.Field "caption")]))
  /\ JMESPath.compile "a.b.c"
     = Some (JMESPath.Subexpression
               [JMESPath.Field "a"; JMESPath.Field "b"; JMESPath.Field "c"])
  /\ JMESPath.compile "a." = None
  /\ JMESPath.compile "" = None.
Proof. repeat split. Qed.

Example make_url_example :
  make_url "REGION^61294" 24
  = ("https://www.rightmove.co.uk/api/_search?areaSizeUnit=sqft&channel=BUY"
       ++ "&currencyCode=GBP&includeSSTC=false&index=24&isFetching=false"
       ++ "&locationIdentifier=REGION%5E61294&numberOfPropertiesPerPage=24"
       ++ "&radius=0.0&sortType=6&viewType=LIST")%string.
Proof. reflexivity. Qed.

Example typeahead_url_example :
  typeahead_url (lib := Sample.library) "cornwall"
  = "https://www.rightmove.co.uk/typeAhead/uknostreet/CO/RN/WA/LL/".
Proof. reflexivity. Qed.

Example thousands_examples :
  Spec.thousands 0 = "0" /\ Spec.thousands 999 = "999"
  /\ Spec.thousands 1234 = "1,234" /\ Spec.thousands 1234567 = "1,234,567".
Proof. repeat split. Qed.

Example extract_property_listing :
  extract_property (lib := Sample.library) Sample.listing_page []
  = ([], inr (JObj [("id", JInt 7);
                    ("status", JObj [("published", JBool true)]);
                    ("images", JArr [JObj [("url", JStr "a.jpg")]; JInt 3])])).
Proof. vm_compute. reflexivity. Qed.

Example parse_property_listing :
  exists record,
    parse_property
      (JObj [("id", JInt 7);
             ("status", JObj [("published", JBool true)]);
             ("images", JArr [JObj [("url", JStr "a.jpg")]; JInt 3])]) []
    = ([], inr record)
    /\ dict_get "id" record = Some (JInt 7)
    /\ dict_get "available" record = Some (JBool true)
    /\ dict_get "photos" record
       = Some (JArr [JObj [("url", JStr "a.jpg"); ("caption", JNull)];
                     JObj [("url", JNull); ("caption", JNull)]])
    /\ dict_get "agency" record = Some JNull.
Proof. eexists. split; [vm_compute; reflexivity|]. repeat split. Qed.

(** ** The monad *)

Lemma bind_ret {A B : Type} (a : A) (k : A -> M B) out :
  bind (ret a) k out = k a out.
Proof. reflexivity. Qed.

Lemma bind_run {A B : Type} (c : M A) (k : A -> M B) out out' a :
  c out = (out', inr a) -> bind c k out = k a out'.
Proof. intros H. unfold bind. rewrite H. reflexivity. Qed.

Lemma bind_raise {A B : Type} (c : M A) (k : A -> M B) out out' e :
  c out = (out', inl e) -> bind c k out = (out', inl e).
Proof. intros H. unfold bind. rewrite H. reflexivity. Qed.

(** A loop whose body fails at one element, whatever it has accumulated,
    fails. *)
Lemma for_each_fails {A S : Type} (body : S -> A -> M S) (x : A) :
  (forall acc out, exists out' e, body acc x out = (out', inl e)) ->
  forall xs, In x xs ->
  forall acc out, exists out' e, for_each xs body acc out = (out', inl e).
Proof.
  intros Hx xs. induction xs as [|y ys IH]; intros Hin acc out.
  - destruct Hin.
  - simpl. unfold bind. destruct (body acc y out) as [o [e|acc']] eqn:Hy.
    + eauto.
    + destruct Hin as [->|Hin].
      * destruct (Hx acc out) as (o' & e & He). congruence.
      * apply IH; assumption.
Qed.

(** ** Dictionaries *)

Lemma dict_get_in {V : Type} (k : string) (v : V) (d : list (string * V)) :
  NoDup (keys d) -> In (k, v) d -> dict_get k d = Some v.
Proof.
  induction d as [|[k' v'] d IH]; simpl; intros Hnd Hin.
  - destruct Hin.
  - inversion Hnd as [|? ? Hnotin Hnd']; subst.
    destruct Hin as [Heq|Hin].
    + inversion Heq; subst. rewrite String.eqb_refl. reflexivity.
    + destruct (String.eqb_spec k k') as [->|Hne].
      * exfalso. apply Hnotin. unfold keys.
        change k' with (fst (k', v)). apply in_map. assumption.
      * apply IH; assumption.
Qed.

(** ** JMESPath: null propagates, and an unresolved path is null *)

Lemma visit_children_null (children : list JMESPath.expr) :
  Forall (fun c => JMESPath.visit c JNull = JNull) children ->
  fold_left (fun result child => JMESPath.visit child result) children JNull = JNull.
Proof.
  induction 1 as [|c cs Hc _ IH]; simpl.
  - reflexivity.
  - rewrite Hc. exact IH.
Qed.

Lemma visit_null (node : JMESPath.expr) : JMESPath.visit node JNull = JNull.
Proof.
  induction node using JMESPath.expr_induction; simpl; try reflexivity.
  - apply visit_children_null. assumption.
  - rewrite IHnode1. reflexivity.
Qed.

Lemma unresolved_is_null (node : JMESPath.expr) :
  forall value, Spec.resolves node value = false -> JMESPath.visit node value = JNull.
Proof.
  induction node as [|name|children IH|lhs rhs IHl _|pairs _]
    using JMESPath.expr_induction; intros value Hres.
  - discriminate.
  - simpl in *. destruct value; try reflexivity.
    destruct (dict_get name members); [discriminate | reflexivity].
  - simpl in *. revert value Hres.
    induction IH as [|c cs Hc _ IHcs]; intros value Hres.
    + discriminate.
    + simpl. apply andb_false_iff in Hres. destruct Hres as [Hres|Hres].
      * rewrite (Hc _ Hres). apply visit_children_null.
        apply Forall_forall. intros; apply visit_null.
      * apply IHcs. exact Hres.
  - simpl in *. apply andb_false_iff in Hres. destruct Hres as [Hres|Hres].
    + rewrite (IHl _ Hres). reflexivity.
    + destruct (JMESPath.visit lhs value); try reflexivity. discriminate.
  - simpl in *. destruct value; try reflexivity; discriminate.
Qed.

(** ** parse_property *)

(** Every expression of the table compiles, to the tree [Spec.parsed_map]
    holds for it. *)
Lemma parse_map_compiles :
  map (fun kv => (fst kv, JMESPath.compile (snd kv))) parse_map
  = map (fun kv => (fst kv, Some (snd kv))) Spec.parsed_map.
Proof. vm_compute. reflexivity. Qed.

Lemma parsed_map_keys : keys Spec.parsed_map = keys parse_map.
Proof. vm_compute. reflexivity. Qed.

Lemma parse_map_keys_nodup : NoDup (keys parse_map).
Proof.
  apply (NoDup_count_occ' string_dec). intros k Hin.
  vm_compute in Hin.
  repeat (destruct Hin as [<-|Hin]; [vm_compute; reflexivity|]).
  destruct Hin.
Qed.

(** The loop of [parse_property] never raises and never prints: it returns
    the projection of [data], field by field. *)
Lemma parse_property_run (data : json) (out : list string) :
  parse_property data out = (out, inr (Spec.project data)).
Proof. vm_compute. reflexivity. Qed.

Lemma project_keys (data : json) : keys (Spec.project data) = keys parse_map.
Proof.
  rewrite <- parsed_map_keys. unfold Spec.project, keys.
  rewrite map_map. reflexivity.
Qed.

Lemma project_null : Spec.project JNull = Spec.null_record.
Proof. vm_compute. reflexivity. Qed.

Lemma parsed_map_in (key path : string) (node : JMESPath.expr) :
  In (key, path) parse_map -> JMESPath.compile path = Some node ->
  In (key, node) Spec.parsed_map.
Proof.
  intros Hin Hc.
  assert (H : In (key, Some node)
                (map (fun kv => (fst kv, Some (snd kv))) Spec.parsed_map)).
  { rewrite <- parse_map_compiles, <- Hc.
    exact (in_map (fun kv => (fst kv, JMESPath.compile (snd kv))) _ _ Hin). }
  apply in_map_iff in H. destruct H as ([k n] & Heq & H).
  cbn [fst snd] in Heq. inversion Heq; subst. exact H.
Qed.

(** C4 -- For every decoded listing object, [parse_property] returns a record
    and raises nothing; every expression of the table compiles; and a field
    whose query path does not resolve against the object holds null. *)
Theorem parse_property_unresolved_is_null :
  forall (data : json) (out : list string),
    exists record : PropertyResult,
      parse_property data out = (out, inr record)
      /\ (forall key path, In (key, path) parse_map ->
            exists node, JMESPath.compile path = Some node)
      /\ (forall key path node,
            In (key, path) parse_map ->
            JMESPath.compile path = Some node ->
            Spec.resolves node data = false ->
            dict_get key record = Some JNull).
Proof.
  intros data out. exists (Spec.project data). split; [|split].
  - apply parse_property_run.
  - intros key path Hin.
    pose proof (in_map (fun kv => (fst kv, JMESPath.compile (snd kv))) _ _ Hin)
      as H.
    rewrite parse_map_compiles in H.
    apply in_map_iff in H. destruct H as ([k n] & Heq & _).
    cbn [fst snd] in Heq. inversion Heq. eauto.
  - intros key path node Hin Hc Hres.
    apply dict_get_in.
    + rewrite project_keys. apply parse_map_keys_nodup.
    + rewrite <- (unresolved_is_null node data Hres).
      unfold Spec.project.
      change (key, JMESPath.visit node data)
        with ((fun kv : string * JMESPath.expr =>
                 (fst kv, JMESPath.visit (snd kv) data)) (key, node)).
      apply in_map. eapply parsed_map_in; eassumption.
Qed.

(** C4, at a concrete object: a listing that has an [id] and nothing else. *)
Lemma parse_property_unresolved_is_null_witness :
  exists record : PropertyResult,
    parse_property (JObj [("id", JInt 7)]) [] = ([], inr record)
    /\ dict_get "phone" record = Some JNull.
Proof.
  destruct (parse_property_unresolved_is_null (JObj [("id", JInt 7)]) [])
    as (record & Hrun & _ & Hnull).
  exists record. split; [exact Hrun|].
  apply (Hnull "phone" "contactInfo.telephoneNumbers.localNumber"
           (JMESPath.Subexpression
              [JMESPath.Field "contactInfo"; JMESPath.Field "telephoneNumbers";
               JMESPath.Field "localNumber"])).
  - simpl. tauto.
  - vm_compute. reflexivity.
  - vm_compute. reflexivity.
Defined.

(** C6 -- For every input, [parse_property] returns one record whose keys are
    exactly the keys of [parse_map], in the order of the table: 27 distinct
    fields. *)
Theorem parse_property_schema :
  forall (data : json) (out : list string),
    exists record : PropertyResult,
      parse_property data out = (out, inr record)
      /\ keys record = keys parse_map
      /\ List.length (keys record) = 27
      /\ NoDup (keys record).
Proof.
  intros data out. exists (Spec.project data).
  split; [apply parse_property_run|].
  rewrite project_keys. split; [reflexivity|]. split; [reflexivity|].
  apply parse_map_keys_nodup.
Qed.

(** ** Completion order *)

Lemma as_completed_map {A B : Type} (f : A -> B) (order : list nat) (aws : list A) :
  as_completed order (map f aws) = map f (as_completed order aws).
Proof.
  unfold as_completed. induction order as [|i order IH]; simpl.
  - reflexivity.
  - rewrite map_app, IH, nth_error_map.
    destruct (nth_error aws i); reflexivity.
Qed.

Lemma as_completed_in_order {A : Type} (prefix aws : list A) :
  as_completed (seq (List.length prefix) (List.length aws)) (prefix ++ aws) = aws.
Proof.
  revert prefix. induction aws as [|a aws IH]; intros prefix.
  - reflexivity.
  - cbn [List.length seq]. unfold as_completed. cbn [flat_map].
    rewrite nth_error_app2 by lia. rewrite Nat.sub_diag. cbn [nth_error].
    specialize (IH (prefix ++ [a])).
    rewrite length_app, Nat.add_1_r, <- app_assoc in IH.
    unfold as_completed in IH. cbn [app] in IH. rewrite IH. reflexivity.
Qed.

(** Under a schedule every awaitable completes exactly once. *)
Lemma as_completed_permutation {A : Type} (order : list nat) (aws : list A) :
  schedule (List.length aws) order -> Permutation (as_completed order aws) aws.
Proof.
  intros Hs. unfold schedule in Hs.
  rewrite <- (as_completed_in_order [] aws) at 2.
  unfold as_completed. apply Permutation_flat_map. exact Hs.
Qed.

Lemma as_completed_length {A : Type} (order : list nat) (aws : list A) :
  schedule (List.length aws) order ->
  List.length (as_completed order aws) = List.length aws.
Proof. intros Hs. apply Permutation_length, as_completed_permutation, Hs. Qed.

(** ** extract_property and scrape_properties *)

Section Extraction.

Context {lib : Library}.

Lemma no_marker_xpath (response : Response) :
  Spec.has_marker response = false -> xpath_get (text response) = None.
Proof.
  unfold Spec.has_marker, xpath_get.
  induction (script_texts (text response)) as [|s l IH]; simpl; intros H.
  - reflexivity.
  - apply orb_false_iff in H. destruct H as [-> H]. apply IH, H.
Qed.

Lemma xpath_has_marker (response : Response) {script : string} :
  xpath_get (text response) = Some script -> Spec.has_marker response = true.
Proof.
  unfold Spec.has_marker, xpath_get. intros H.
  apply find_some in H. apply existsb_exists. eauto.
Qed.

Lemma extract_no_marker (response : Response) (out : list string) :
  Spec.has_marker response = false ->
  extract_property response out = (out ++ [Spec.diagnostic response], inr JNull).
Proof.
  intros H. unfold extract_property. rewrite (no_marker_xpath _ H). reflexivity.
Qed.

(** What [extract_property] does once the text after the marker is known. *)
Lemma extract_page_model (response : Response) (source : string) (out : list string) :
  Spec.page_model response = Some source ->
  extract_property response out
  = (data <- of_option JSONDecodeError (json_loads source) ;;
     getitem data "propertyData") out.
Proof.
  unfold Spec.page_model, extract_property. intros H.
  destruct (xpath_get (text response)) as [script|]; [|discriminate].
  destruct (nth_error (Str.split1 marker script) 1) as [after|] eqn:Hsplit;
    [|discriminate].
  destruct script as [|c script].
  - vm_compute in Hsplit. discriminate.
  - cbv beta iota. simpl in H. inversion H; subst. reflexivity.
Qed.

Lemma extract_embeds {response : Response} {data : json} (out : list string) :
  Spec.embeds response data -> extract_property response out = (out, inr data).
Proof.
  intros (source & members & Hsrc & Hjson & Hget).
  rewrite (extract_page_model _ _ out Hsrc).
  unfold bind. rewrite Hjson. simpl. rewrite Hget. reflexivity.
Qed.

Lemma extract_undecodable (response : Response) (out : list string) :
  Spec.undecodable response ->
  extract_property response out = (out, inl JSONDecodeError).
Proof.
  intros (source & Hsrc & Hjson).
  rewrite (extract_page_model _ _ out Hsrc).
  unfold bind. rewrite Hjson. reflexivity.
Qed.

Lemma scrape_step_contributes {response record} properties out :
  Spec.contributes response record ->
  exists out',
    scrape_step properties (inr response) out = (out', inr (properties ++ [record]))
    /\ (forall line, In line out -> In line out')
    /\ (Spec.has_marker response = false -> In (Spec.diagnostic response) out').
Proof.
  intros [[Hno ->]|(data & Hemb & ->)]; unfold scrape_step; simpl.
  - exists (out ++ [Spec.diagnostic response]). split; [|split].
    + unfold bind at 1. simpl.
      unfold bind. rewrite (extract_no_marker _ _ Hno), parse_property_run.
      rewrite project_null. reflexivity.
    + intros line Hin. apply in_or_app. left. exact Hin.
    + intros _. apply in_or_app. right. left. reflexivity.
  - exists out. split; [|split].
    + unfold bind at 1. simpl.
      unfold bind. rewrite (extract_embeds _ Hemb), parse_property_run.
      reflexivity.
    + auto.
    + intros Hno. destruct Hemb as (source & _ & Hsrc & _).
      unfold Spec.page_model in Hsrc.
      destruct (xpath_get (text response)) eqn:Hx; [|discriminate].
      rewrite (xpath_has_marker _ Hx) in Hno. discriminate.
Qed.

(** The loop over pages that all contribute a record: it returns, with the
    records in completion order after what was accumulated, and it has
    printed the diagnostic of every page without the marker. *)
Lemma scrape_loop_contributes responses records :
  Forall2 Spec.contributes responses records ->
  forall properties out,
  exists out',
    for_each (map inr responses) scrape_step properties out
    = (out', inr (properties ++ records))
    /\ (forall line, In line out -> In line out')
    /\ (forall r, In r responses -> Spec.has_marker r = false ->
          In (Spec.diagnostic r) out').
Proof.
  induction 1 as [|r record rs recs Hc _ IH]; intros properties out.
  - exists out. simpl. rewrite app_nil_r. repeat split; auto. intros r [].
  - destruct (scrape_step_contributes properties out Hc)
      as (out1 & Hstep & Hmono & Hdiag).
    destruct (IH (properties ++ [record]) out1) as (out2 & Hloop & Hkeep & Hrest).
    exists out2. simpl. unfold bind at 1. rewrite Hstep, Hloop, <- app_assoc.
    split; [reflexivity|]. split.
    + intros line Hin. apply Hkeep, Hmono, Hin.
    + intros r' [<-|Hin] Hno.
      * apply Hkeep, Hdiag, Hno.
      * apply Hrest; assumption.
Qed.

End Extraction.

Lemma for_each_app {A S : Type} (body : S -> A -> M S) (xs ys : list A) :
  forall acc out,
    for_each (xs ++ ys) body acc out
    = bind (for_each xs body acc) (for_each ys body) out.
Proof.
  induction xs as [|x xs IH]; intros acc out; simpl.
  - reflexivity.
  - unfold bind. destruct (body acc x out) as [o [e|acc']]; [reflexivity|].
    rewrite IH. reflexivity.
Qed.

Lemma Forall2_in_left {A B : Type} {R : A -> B -> Prop} {l : list A} {l' : list B} :
  Forall2 R l l' -> forall x, In x l -> exists y, In y l' /\ R x y.
Proof.
  induction 1 as [|a b l l' Hab _ IH]; intros x Hin.
  - destruct Hin.
  - destruct Hin as [<-|Hin].
    + exists b. split; [left; reflexivity | exact Hab].
    + destruct (IH x Hin) as (y & Hy & Hxy). exists y. split; [right|]; assumption.
Qed.

Section Batch.

Context {lib : Library}.

Lemma digestible_contributes (response : Response) :
  Spec.digestible response -> exists record, Spec.contributes response record.
Proof.
  intros Hd. destruct (Spec.has_marker response) eqn:Hm.
  - destruct (Hd Hm) as (data & Hemb).
    exists (Spec.project data). right. eauto.
  - exists Spec.null_record. left. auto.
Qed.

Lemma embeds_has_marker {response : Response} {data : json} :
  Spec.embeds response data -> Spec.has_marker response = true.
Proof.
  intros (source & _ & Hsrc & _). unfold Spec.page_model in Hsrc.
  destruct (xpath_get (text response)) eqn:Hx; [|discriminate].
  apply (xpath_has_marker _ Hx).
Qed.

Lemma embeds_functional {response : Response} {d1 d2 : json} :
  Spec.embeds response d1 -> Spec.embeds response d2 -> d1 = d2.
Proof.
  intros (s1 & m1 & Hs1 & Hj1 & Hg1) (s2 & m2 & Hs2 & Hj2 & Hg2).
  congruence.
Qed.

Lemma all_contribute (responses : list Response) :
  Forall Spec.digestible responses ->
  exists records, Forall2 Spec.contributes responses records.
Proof.
  induction 1 as [|r rs Hr _ (recs & IH)].
  - exists []. constructor.
  - destruct (digestible_contributes _ Hr) as (rec & Hrec).
    exists (rec :: recs). constructor; assumption.
Qed.

(** When every fetch of a batch returns a Spec.digestible page, the outcomes are
    those pages. *)
Lemma fetched_pages (net : Net) (urls : list string) :
  (forall u, In u urls -> exists r, net u = inr r /\ Spec.digestible r) ->
  exists pages,
    map net urls = map inr pages /\ Forall Spec.digestible pages.
Proof.
  induction urls as [|u urls IH]; intros H.
  - exists []. split; constructor.
  - destruct (H u (or_introl eq_refl)) as (r & Hr & Hd).
    destruct IH as (pages & Hmap & Hall).
    { intros u' Hin. apply H. right. exact Hin. }
    exists (r :: pages). simpl. rewrite Hr, Hmap. split; [reflexivity|].
    constructor; assumption.
Qed.

(** The batch over Spec.digestible pages: the general form of C1 and C10. *)
Lemma scrape_properties_digestible (net : Net) (order : list nat)
      (urls : list string) (out : list string) :
  schedule (List.length urls) order ->
  (forall u, In u urls -> exists r, net u = inr r /\ Spec.digestible r) ->
  exists pages completed records out',
    map net urls = map inr pages
    /\ completed = as_completed order pages
    /\ Permutation completed pages
    /\ Forall2 Spec.contributes completed records
    /\ scrape_properties net order urls out = (out', inr records)
    /\ (forall r, In r pages -> Spec.has_marker r = false ->
          In (Spec.diagnostic r) out').
Proof.
  intros Hs Hall.
  destruct (fetched_pages net urls Hall) as (pages & Hmap & Hd).
  assert (Hlen : List.length pages = List.length urls).
  { pose proof (f_equal (@List.length _) Hmap) as H.
    rewrite !length_map in H. symmetry. exact H. }
  assert (Hperm : Permutation (as_completed order pages) pages).
  { apply as_completed_permutation. rewrite Hlen. exact Hs. }
  destruct (all_contribute (as_completed order pages))
    as (records & Hrecs).
  { rewrite Forall_forall in *. intros r Hin. apply Hd.
    apply (Permutation_in _ Hperm Hin). }
  destruct (scrape_loop_contributes _ _ Hrecs [] out) as (out' & Hloop & _ & Hdiag).
  exists pages, (as_completed order pages), records, out'.
  repeat split; try assumption.
  - unfold scrape_properties. cbv zeta. rewrite Hmap, as_completed_map.
    exact Hloop.
  - intros r Hin Hno. apply Hdiag; [|exact Hno].
    apply (Permutation_in _ (Permutation_sym Hperm) Hin).
Qed.

End Batch.

(** ** The sample pages *)

Lemma sample_listing_embeds :
  Spec.embeds (lib := Sample.library) Sample.listing_page
    (JObj [("id", JInt 7); ("status", JObj [("published", JBool true)]);
           ("images", JArr [JObj [("url", JStr "a.jpg")]; JInt 3])]).
Proof.
  eexists. eexists. split; [|split].
  - vm_compute. reflexivity.
  - vm_compute. reflexivity.
  - reflexivity.
Qed.

Lemma sample_other_no_marker :
  Spec.has_marker (lib := Sample.library) Sample.other_page = false.
Proof. vm_compute. reflexivity. Qed.

Lemma sample_broken_undecodable :
  Spec.undecodable (lib := Sample.library) Sample.broken_page.
Proof. eexists. split; vm_compute; reflexivity. Qed.

Lemma sample_batch_digestible :
  forall u, In u [Sample.listing_url; Sample.other_url] ->
  exists r, Sample.site u = inr r /\ Spec.digestible (lib := Sample.library) r.
Proof.
  intros u [<-|[<-|[]]].
  - exists Sample.listing_page. split; [reflexivity|].
    intros _. eexists. apply sample_listing_embeds.
  - exists Sample.other_page. split; [reflexivity|].
    intros H. rewrite sample_other_no_marker in H. discriminate.
Qed.

Lemma sample_schedule : schedule 2 [1; 0].
Proof. unfold schedule. simpl. apply perm_swap. Qed.

(** ** C1, C7, C10: pages without the marker, pages that do not decode *)

(** C1 (as stated, refuted) -- In a batch of a page without the marker and a
    listing, the page without the marker does yield a record: the batch
    returns two records, and the first is the record whose fields are all
    null. *)
Lemma page_without_marker_yields_a_record :
  exists out records,
    scrape_properties (lib := Sample.library) Sample.site [0; 1]
      [Sample.other_url; Sample.listing_url] []
    = (out, inr records)
    /\ List.length records = 2
    /\ nth_error records 0 = Some Spec.null_record
    /\ Spec.has_marker (lib := Sample.library) Sample.other_page = false.
Proof.
  eexists. eexists. split; [vm_compute; reflexivity|].
  split; [reflexivity|]. split; [reflexivity|]. vm_compute. reflexivity.
Qed.

(** C1 (amended) -- When a fetched page has no script element whose text
    contains the marker, [extract_property] prints the diagnostic and returns
    [None] without raising.  In a batch whose fetches all return digestible
    pages, [scrape_properties] does not raise either: the diagnostic is
    printed, the page yields the record whose fields are all null, and every
    listing of the batch yields the projection of its own property data. *)
Theorem extract_property_without_marker :
  forall (lib : Library) (response : Response) (out : list string),
    Spec.has_marker response = false ->
    extract_property response out = (out ++ [Spec.diagnostic response], inr JNull)
    /\ forall (net : Net) (order : list nat) (urls : list string),
         schedule (List.length urls) order ->
         (forall u, In u urls -> exists r, net u = inr r /\ Spec.digestible r) ->
         In (inr response) (map net urls) ->
         exists out' records,
           scrape_properties net order urls out = (out', inr records)
           /\ In (Spec.diagnostic response) out'
           /\ In Spec.null_record records
           /\ (forall listing data,
                 In (inr listing) (map net urls) -> Spec.embeds listing data ->
                 In (Spec.project data) records).
Proof.
  intros lib response out Hno. split; [apply extract_no_marker, Hno|].
  intros net order urls Hs Hall Hin.
  destruct (scrape_properties_digestible net order urls out Hs Hall)
    as (pages & completed & records & out' & Hmap & -> & Hperm & Hrecs & Hrun & Hdiag).
  assert (Hpage : forall r, In (inr r) (map net urls) ->
                  In r (as_completed order pages)).
  { intros r Hr. rewrite Hmap in Hr. apply in_map_iff in Hr.
    destruct Hr as (r' & Heq & Hr'). inversion Heq; subst.
    apply (Permutation_in _ (Permutation_sym Hperm) Hr'). }
  exists out', records. split; [exact Hrun|]. split; [|split].
  - apply Hdiag; [|exact Hno].
    apply (Permutation_in _ Hperm), Hpage, Hin.
  - destruct (Forall2_in_left Hrecs _ (Hpage _ Hin)) as (rec & Hrec & Hc).
    destruct Hc as [[_ ->]|(data & Hemb & _)]; [exact Hrec|].
    rewrite (embeds_has_marker Hemb) in Hno. discriminate.
  - intros listing data Hl Hemb.
    destruct (Forall2_in_left Hrecs _ (Hpage _ Hl)) as (rec & Hrec & Hc).
    destruct Hc as [[Hno' _]|(data' & Hemb' & ->)].
    + rewrite (embeds_has_marker Hemb) in Hno'. discriminate.
    + rewrite (embeds_functional Hemb Hemb'). exact Hrec.
Qed.

(** C1, at the sample batch: the page without the marker and a listing,
    completing in reverse order. *)
Lemma extract_property_without_marker_witness :
  Spec.has_marker (lib := Sample.library) Sample.other_page = false
  /\ extract_property (lib := Sample.library) Sample.other_page []
     = ([Spec.diagnostic Sample.other_page], inr JNull)
  /\ exists out' records,
       scrape_properties (lib := Sample.library) Sample.site [1; 0]
         [Sample.listing_url; Sample.other_url] [] = (out', inr records)
       /\ In Spec.null_record records.
Proof.
  destruct (extract_property_without_marker Sample.library Sample.other_page []
              sample_other_no_marker) as (Hextract & Hbatch).
  split; [exact sample_other_no_marker|]. split; [exact Hextract|].
  destruct (Hbatch Sample.site [1; 0] [Sample.listing_url; Sample.other_url]
              sample_schedule sample_batch_digestible)
    as (out' & records & Hrun & _ & Hnull & _).
  - right. left. reflexivity.
  - exists out', records. split; assumption.
Defined.

(** C7 -- When the page has the marker and the text after it is not JSON,
    [extract_property] raises the decode error and prints nothing.
    [scrape_properties] has no handler: a batch that contains the page never
    returns, and when the pages that completed before it were all digested the
    error the caller sees is that decode error. *)
Theorem extract_property_decode_error_propagates :
  forall (lib : Library) (response : Response) (out : list string),
    Spec.undecodable response ->
    extract_property response out = (out, inl JSONDecodeError)
    /\ (forall (net : Net) (order : list nat) (urls : list string),
          schedule (List.length urls) order ->
          In (inr response) (map net urls) ->
          exists out' e, scrape_properties net order urls out = (out', inl e))
    /\ (forall (net : Net) (order : list nat) (urls : list string)
               (before : list Response) (after : list (exn + Response)),
          as_completed order (map net urls)
          = map inr before ++ inr response :: after ->
          Forall Spec.digestible before ->
          exists out', scrape_properties net order urls out
                       = (out', inl JSONDecodeError)).
Proof.
  intros lib response out Hbad.
  assert (Hstep : forall acc o,
             scrape_step acc (inr response) o = (o, inl JSONDecodeError)).
  { intros acc o. unfold scrape_step. simpl. unfold bind. simpl.
    rewrite (extract_undecodable _ o Hbad). reflexivity. }
  split; [apply extract_undecodable, Hbad|]. split.
  - intros net order urls Hs Hin. unfold scrape_properties. cbv zeta.
    apply for_each_fails with (x := inr response).
    + intros acc o. rewrite Hstep. eauto.
    + assert (Hs' : schedule (List.length (map net urls)) order)
        by (rewrite length_map; exact Hs).
      apply (Permutation_in _
               (Permutation_sym (as_completed_permutation _ _ Hs'))).
      exact Hin.
  - intros net order urls before after Hcompleted Hbefore.
    unfold scrape_properties. cbv zeta. rewrite Hcompleted, for_each_app.
    destruct (all_contribute before Hbefore) as (records & Hrecs).
    destruct (scrape_loop_contributes _ _ Hrecs [] out) as (out' & Hloop & _).
    exists out'. unfold bind. rewrite Hloop. simpl. unfold bind.
    rewrite Hstep. reflexivity.
Qed.

(** C7, at the sample batch: a listing, the page without the marker and the
    page that breaks off, the listing completing first. *)
Lemma extract_property_decode_error_propagates_witness :
  Spec.undecodable (lib := Sample.library) Sample.broken_page
  /\ extract_property (lib := Sample.library) Sample.broken_page []
     = ([], inl JSONDecodeError)
  /\ exists out',
       scrape_properties (lib := Sample.library) Sample.site [0; 2; 1]
         [Sample.listing_url; Sample.other_url; Sample.broken_url] []
       = (out', inl JSONDecodeError).
Proof.
  destruct (extract_property_decode_error_propagates Sample.library
              Sample.broken_page [] sample_broken_undecodable)
    as (Hextract & _ & Hfirst).
  split; [exact sample_broken_undecodable|]. split; [exact Hextract|].
  apply (Hfirst Sample.site [0; 2; 1]
           [Sample.listing_url; Sample.other_url; Sample.broken_url]
           [Sample.listing_page] [inr Sample.other_page]).
  - reflexivity.
  - constructor; [|constructor].
    intros _. eexists. apply sample_listing_embeds.
Defined.

(** C10 -- For every list of URLs, when every fetch returns a digestible page
    (a page that has the marker embeds a JSON object with the key
    [propertyData]), [scrape_properties] returns one record per URL, in
    completion order.  A page without the marker contributes the record that
    [parse_property] returns for [None], whose 27 fields are all null. *)
Theorem scrape_properties_one_record_per_url :
  forall (lib : Library) (net : Net) (order : list nat) (urls : list string)
         (out : list string),
    schedule (List.length urls) order ->
    (forall u, In u urls -> exists r, net u = inr r /\ Spec.digestible r) ->
    exists pages records out',
      map net urls = map inr pages
      /\ scrape_properties net order urls out = (out', inr records)
      /\ List.length records = List.length urls
      /\ Forall2 Spec.contributes (as_completed order pages) records
      /\ parse_property JNull out' = (out', inr Spec.null_record)
      /\ Forall (fun field => snd field = JNull) Spec.null_record
      /\ List.length Spec.null_record = 27.
Proof.
  intros lib net order urls out Hs Hall.
  destruct (scrape_properties_digestible net order urls out Hs Hall)
    as (pages & completed & records & out' & Hmap & -> & Hperm & Hrecs & Hrun & _).
  exists pages, records, out'.
  split; [exact Hmap|]. split; [exact Hrun|]. split; [|split; [exact Hrecs|]].
  - rewrite <- (Forall2_length Hrecs), (Permutation_length Hperm).
    pose proof (f_equal (@List.length _) Hmap) as H.
    rewrite !length_map in H. symmetry. exact H.
  - split; [rewrite parse_property_run, project_null; reflexivity|].
    split; [|reflexivity].
    apply Forall_forall. intros field Hin. vm_compute in Hin.
    repeat (destruct Hin as [<-|Hin]; [reflexivity|]). destruct Hin.
Qed.

(** C10, at the sample batch. *)
Lemma scrape_properties_one_record_per_url_witness :
  exists records out',
    scrape_properties (lib := Sample.library) Sample.site [1; 0]
      [Sample.listing_url; Sample.other_url] [] = (out', inr records)
    /\ List.length records = 2.
Proof.
  destruct (scrape_properties_one_record_per_url Sample.library Sample.site
              [1; 0] [Sample.listing_url; Sample.other_url] []
              sample_schedule sample_batch_digestible)
    as (pages & records & out' & _ & Hrun & Hlen & _).
  exists records, out'. split; assumption.
Defined.

(** ** C2: the tokenized path of find_locations *)

Lemma string_pair_ind (P : string -> Prop) :
  P "" ->
  (forall a, P (String a "")) ->
  (forall a b s, P s -> P (String a (String b s))) ->
  forall s, P s.
Proof.
  intros H0 H1 H2 s.
  assert (H : P s /\ forall a, P (String a s)).
  { induction s as [|b s [IHs IHas]].
    - split; [exact H0 | exact H1].
    - split; [apply IHas|]. intros a. apply H2. exact IHs. }
  apply H.
Qed.

Lemma append_nil_r (s : string) : (s ++ "")%string = s.
Proof. induction s; simpl; congruence. Qed.

Lemma append_assoc (a b c : string) : ((a ++ b) ++ c = a ++ (b ++ c))%string.
Proof. induction a; simpl; congruence. Qed.

Lemma concat_empty_cons (x : string) (rest : list string) :
  String.concat "" (x :: rest) = (x ++ String.concat "" rest)%string.
Proof.
  destruct rest; simpl.
  - rewrite append_nil_r. reflexivity.
  - reflexivity.
Qed.

Lemma odd_mod2 (k : nat) : Nat.odd k = true -> k mod 2 = 1 /\ S k mod 2 = 0.
Proof.
  intros Hk. apply Nat.odd_spec in Hk. destruct Hk as (m & ->). split.
  - rewrite Nat.add_comm, Nat.mul_comm, Nat.Div0.mod_add. reflexivity.
  - replace (S (2 * m + 1)) with (0 + (m + 1) * 2) by lia.
    rewrite Nat.Div0.mod_add. reflexivity.
Qed.

(** The separator [tokenize_query] leaves at the end: one after a complete
    last group. *)
Lemma tokenize_groups (s : string) :
  forall k, Nat.odd k = true ->
  String.concat ""
    (map (fun ic : nat * ascii =>
            String (snd ic) (if Nat.eqb (fst ic mod 2) 0 then "/" else ""))
       (Str.enumerate k (list_ascii_of_string s)))
  = (String.concat "/" (Spec.chunks2 s)
       ++ match s with
          | EmptyString => ""
          | _ => if Nat.even (String.length s) then "/" else ""
          end)%string.
Proof.
  induction s as [|a|a b s IH] using string_pair_ind; intros k Hk.
  - reflexivity.
  - cbn [list_ascii_of_string Str.enumerate map fst snd String.concat].
    rewrite (proj1 (odd_mod2 k Hk)). reflexivity.
  - destruct (odd_mod2 k Hk) as (Hm & Hm').
    cbn [list_ascii_of_string Str.enumerate map fst snd].
    rewrite !concat_empty_cons, Hm, Hm'. cbn [Nat.eqb].
    rewrite (IH (S (S k))) by (rewrite Nat.odd_succ_succ; exact Hk).
    cbn [Spec.chunks2 String.length Nat.even].
    destruct s as [|c s].
    + reflexivity.
    + destruct (Spec.chunks2 (String c s)) as [|g gs] eqn:Hg.
      * destruct s; discriminate.
      * cbn [String.concat append]. reflexivity.
Qed.

Lemma rstrip_keep (p : ascii -> bool) (c : ascii) (s : string) :
  p c = true -> Str.rstrip p (s ++ String c "") = Str.rstrip p s.
Proof.
  intros Hc. induction s as [|a s IH]; simpl.
  - rewrite Hc. reflexivity.
  - rewrite IH. reflexivity.
Qed.

Lemma rstrip_id (c : ascii) (s : string) :
  Spec.ends_with c s = false -> Str.rstrip (Ascii.eqb c) s = s.
Proof.
  induction s as [|a s IH]; intros H.
  - reflexivity.
  - cbn [Str.rstrip]. destruct s as [|b s].
    + cbn in *. rewrite Ascii.eqb_sym, H. reflexivity.
    + rewrite IH by exact H. reflexivity.
Qed.

Lemma lstrip_id (c : ascii) (s : string) :
  Spec.begins_with c s = false -> Str.lstrip (Ascii.eqb c) s = s.
Proof.
  destruct s as [|a s]; intros H.
  - reflexivity.
  - cbn in *. rewrite Ascii.eqb_sym, H. reflexivity.
Qed.

Lemma chunks2_begins (c : ascii) (s : string) :
  Spec.begins_with c (String.concat "/" (Spec.chunks2 s)) = Spec.begins_with c s.
Proof.
  destruct s as [|a [|b s]]; try reflexivity.
  cbn [Spec.chunks2 String.concat]. destruct (Spec.chunks2 s); reflexivity.
Qed.

Lemma ends_with_append (c : ascii) (x y : string) :
  y <> "" -> Spec.ends_with c (x ++ y) = Spec.ends_with c y.
Proof.
  intros Hy. induction x as [|a x IH].
  - reflexivity.
  - cbn [append Spec.ends_with]. rewrite IH.
    destruct (x ++ y)%string eqn:Hxy; [|reflexivity].
    destruct x; [|discriminate]. simpl in Hxy. contradiction.
Qed.

Lemma chunks2_ends (c : ascii) (s : string) :
  Spec.ends_with c (String.concat "/" (Spec.chunks2 s)) = Spec.ends_with c s.
Proof.
  induction s as [|a|a b s IH] using string_pair_ind; try reflexivity.
  cbn [Spec.chunks2 String.concat].
  destruct s as [|d s]; [reflexivity|].
  destruct (Spec.chunks2 (String d s)) as [|g gs] eqn:Hg.
  { destruct s; discriminate. }
  change (String a (String b "") ++ "/" ++ String.concat "/" (g :: gs))%string
    with (String a (String b "/") ++ String.concat "/" (g :: gs))%string.
  rewrite ends_with_append.
  - rewrite IH. reflexivity.
  - destruct gs, g; cbn; try discriminate.
    destruct s as [|e s]; cbn in Hg; inversion Hg.
Qed.

Lemma chunks2_concat (s : string) : String.concat "" (Spec.chunks2 s) = s.
Proof.
  induction s as [|a|a b s IH] using string_pair_ind; try reflexivity.
  cbn [Spec.chunks2]. rewrite concat_empty_cons, IH. reflexivity.
Qed.

Lemma chunks2_complete (s : string) :
  Forall (fun g => String.length g = 2) (removelast (Spec.chunks2 s)).
Proof.
  induction s as [|a|a b s IH] using string_pair_ind;
    try (cbn; constructor).
  cbn [Spec.chunks2]. destruct (Spec.chunks2 s) as [|g gs] eqn:Hg.
  - constructor.
  - cbn [removelast] in *. constructor; [reflexivity | exact IH].
Qed.

Lemma chunks2_last (s : string) :
  s <> "" ->
  String.length (last (Spec.chunks2 s) "")
  = if Nat.even (String.length s) then 2 else 1.
Proof.
  induction s as [|a|a b s IH] using string_pair_ind; intros Hs.
  - contradiction.
  - reflexivity.
  - cbn [Spec.chunks2 String.length Nat.even].
    destruct s as [|c s]; [reflexivity|].
    destruct (Spec.chunks2 (String c s)) as [|g gs] eqn:Hg.
    { destruct s; discriminate. }
    cbn [last]. apply IH. discriminate.
Qed.

Lemma chunks2_head (a : ascii) (s : string) :
  exists rest, String.concat "/" (Spec.chunks2 (String a s)) = String a rest.
Proof.
  destruct s as [|b s].
  - exists "". reflexivity.
  - cbn [Spec.chunks2 String.concat]. destruct (Spec.chunks2 s); eexists; reflexivity.
Qed.

Lemma strip_tokenized (s tail : string) :
  Spec.begins_with "/" s = false ->
  Spec.ends_with "/" s = false ->
  tail = "" \/ (tail = "/" /\ s <> "") ->
  Str.strip (Ascii.eqb "/") (String.concat "/" (Spec.chunks2 s) ++ tail)
  = String.concat "/" (Spec.chunks2 s).
Proof.
  intros Hb He [->|[-> Hs]]; unfold Str.strip.
  - rewrite append_nil_r, lstrip_id, rstrip_id; try reflexivity.
    + rewrite chunks2_ends. exact He.
    + rewrite chunks2_begins. exact Hb.
  - rewrite lstrip_id.
    + rewrite rstrip_keep by reflexivity. apply rstrip_id.
      rewrite chunks2_ends. exact He.
    + destruct s as [|a s]; [contradiction|].
      destruct (chunks2_head a s) as (rest & ->). exact Hb.
Qed.

(** C2 (as stated, refuted) -- For the query ["/a"], of even length, the path
    segment is the single character ["A"]: the leading separator of the
    query is stripped with the trailing one, so the result is not the
    two-character groups of the uppercased query. *)
Lemma tokenized_path_strips_query_separators :
  tokenized_path (lib := Sample.library) "/a" = "A"
  /\ str_upper (Library := Sample.library) "/a" = "/A"
  /\ Spec.tokenization (lib := Sample.library) "/a" = "/A"
  /\ tokenized_path (lib := Sample.library) "/a"
     <> Spec.tokenization (lib := Sample.library) "/a".
Proof. repeat split. discriminate. Qed.

(** C2 (amended) -- For every query whose uppercased form neither begins nor
    ends with the separator, the path segment of [find_locations] is the
    uppercased query cut into groups joined by ["/"]: the groups concatenate
    to the uppercased query, every group but the last has two characters, the
    last has two, or one when the uppercased query has odd length, and the
    segment neither begins nor ends with the separator.  With an [upper] that
    turns ["edinburgh"] into ["EDINBURGH"], the segment for ["edinburgh"] is
    ["ED/IN/BU/RG/H"]. *)
Theorem tokenized_path_groups :
  forall (lib : Library) (query : string),
    Spec.begins_with "/" (str_upper query) = false ->
    Spec.ends_with "/" (str_upper query) = false ->
    tokenized_path query = Spec.tokenization query
    /\ String.concat "" (Spec.chunks2 (str_upper query)) = str_upper query
    /\ Forall (fun g => String.length g = 2)
         (removelast (Spec.chunks2 (str_upper query)))
    /\ (str_upper query <> "" ->
        String.length (last (Spec.chunks2 (str_upper query)) "")
        = if Nat.even (String.length (str_upper query)) then 2 else 1)
    /\ Spec.begins_with "/" (tokenized_path query) = false
    /\ Spec.ends_with "/" (tokenized_path query) = false
    /\ (str_upper "edinburgh" = "EDINBURGH" ->
        tokenized_path "edinburgh" = "ED/IN/BU/RG/H").
Proof.
  intros lib query Hb He.
  assert (Hpath : forall q,
             Spec.begins_with "/" (str_upper q) = false ->
             Spec.ends_with "/" (str_upper q) = false ->
             tokenized_path q = Spec.tokenization q).
  { intros q Hbq Heq. unfold tokenized_path, tokenize_query, Spec.tokenization.
    rewrite (tokenize_groups (str_upper q) 1 eq_refl).
    apply strip_tokenized; try assumption.
    destruct (str_upper q) as [|a s]; [left; reflexivity|].
    destruct (Nat.even (String.length (String a s)));
      [right; split; [reflexivity | discriminate] | left; reflexivity]. }
  split; [apply Hpath; assumption|].
  split; [apply chunks2_concat|].
  split; [apply chunks2_complete|].
  split; [apply chunks2_last|].
  rewrite (Hpath query Hb He). unfold Spec.tokenization.
  rewrite chunks2_begins, chunks2_ends.
  split; [exact Hb|]. split; [exact He|].
  intros Hup. rewrite Hpath; unfold Spec.tokenization; rewrite Hup; reflexivity.
Qed.

(** C2, at the query ["edinburgh"] with the sample [upper]. *)
Lemma tokenized_path_groups_witness :
  tokenized_path (lib := Sample.library) "edinburgh" = "ED/IN/BU/RG/H"
  /\ Spec.chunks2 (str_upper (Library := Sample.library) "edinburgh")
     = ["ED"; "IN"; "BU"; "RG"; "H"].
Proof.
  destruct (tokenized_path_groups Sample.library "edinburgh" eq_refl eq_refl)
    as (Hpath & _).
  split; [rewrite Hpath|]; reflexivity.
Defined.

(** ** C3: the offsets scrape_search requests *)

Lemma offsets_until_limit_seq (n : nat) :
  forall (k : nat) (offset : Z),
    In offset
      (offsets_until_limit
         (map (fun i => RESULTS_PER_PAGE + Z.of_nat i * RESULTS_PER_PAGE)%Z (seq k n)))
    <-> exists i, (k <= i < k + n)%nat
                  /\ offset = (24 + Z.of_nat i * 24)%Z
                  /\ (offset < 1000)%Z.
Proof.
  unfold RESULTS_PER_PAGE.
  induction n as [|n IH]; intros k offset.
  - simpl. split; [intros [] | intros (i & Hi & _); lia].
  - cbn [seq map offsets_until_limit]. unfold max_api_results.
    rewrite Z.geb_leb. destruct (Z.leb_spec 1000 (24 + Z.of_nat k * 24)) as [Hge|Hlt].
    + split; [intros [] | intros (i & Hi & -> & Hlim); lia].
    + cbn [In]. rewrite IH. split.
      * intros [<-|(i & Hi & Heq & Hlim)].
        -- exists k. lia.
        -- exists i. lia.
      * intros (i & Hi & Heq & Hlim).
        destruct (Nat.eq_dec i k) as [->|Hne].
        -- left. lia.
        -- right. exists i. lia.
Qed.

Lemma other_page_offsets_spec (total offset : Z) :
  In offset (other_page_offsets total)
  <-> (24 <= offset /\ offset mod 24 = 0 /\ offset < total /\ offset < 1000)%Z.
Proof.
  unfold other_page_offsets, range. rewrite offsets_until_limit_seq.
  unfold RESULTS_PER_PAGE. split.
  - intros (i & Hi & -> & Hlim).
    assert (Hq : (Z.of_nat i < (total - 24 + 24 - 1) / 24)%Z).
    { lia. }
    revert Hq. Z.div_mod_to_equations. lia.
  - intros (Hlow & Hmod & Htotal & Hlim).
    exists (Z.to_nat (offset / 24 - 1)). revert Hmod.
    assert (Hq : (offset / 24 - 1 < (total - 24 + 24 - 1) / 24)%Z).
    { Z.div_mod_to_equations. lia. }
    assert (Hq0 : (0 <= offset / 24 - 1)%Z).
    { Z.div_mod_to_equations. lia. }
    intros Hmod. split; [lia|]. split; [|exact Hlim].
    rewrite Z2Nat.id by exact Hq0.
    revert Hmod. Z.div_mod_to_equations. lia.
Qed.

Lemma offsets_until_limit_in (offsets : list Z) (offset : Z) :
  In offset (offsets_until_limit offsets) -> In offset offsets.
Proof.
  induction offsets as [|o rest IH]; simpl.
  - auto.
  - destruct (o >=? max_api_results)%Z; [intros [] | intros [H|H]; auto].
Qed.

Lemma offsets_until_limit_nodup (offsets : list Z) :
  NoDup offsets -> NoDup (offsets_until_limit offsets).
Proof.
  induction 1 as [|o rest Hnotin _ IH]; simpl.
  - constructor.
  - destruct (o >=? max_api_results)%Z; constructor.
    + intros H. apply Hnotin, offsets_until_limit_in, H.
    + exact IH.
Qed.

Lemma requested_offsets_nodup (total : Z) : NoDup (requested_offsets total).
Proof.
  unfold requested_offsets. constructor.
  - rewrite other_page_offsets_spec. lia.
  - apply offsets_until_limit_nodup. unfold range.
    apply Finite.Injective_map_NoDup; [|apply seq_NoDup].
    intros i j. unfold RESULTS_PER_PAGE. lia.
Qed.

(** C3 (as stated, refuted) -- For a declared total of 0 the offset 0 is
    requested, and 0 is not strictly less than the total. *)
Lemma offset_zero_requested_for_empty_search :
  requested_offsets 0 = [0%Z]
  /\ In 0%Z (requested_offsets 0)
  /\ ~ Spec.offset_in_bounds 0 0.
Proof.
  split; [reflexivity|]. split; [left; reflexivity|].
  unfold Spec.offset_in_bounds. lia.
Qed.

(** C3 (amended) -- Offset 0 is requested whatever the declared total (the
    first page is what declares it); the other requested offsets are exactly
    the positive multiples of the page size, 24, that are strictly less than
    both the declared total and the cap, 1000.  So for every declared total of
    at least 1 the requested offsets are exactly the multiples of 24 strictly
    less than both; each is requested once.  A total of 100 gives
    0, 24, 48, 72, 96; a total of 2000 gives no offset of 1000 or above, and
    the same requests as a total of 1000: the cap ends the loop and raises
    nothing. *)
Theorem requested_offsets_bounds :
  forall total offset : Z,
    (In offset (requested_offsets total)
     <-> offset = 0%Z \/ Spec.offset_in_bounds total offset)
    /\ ((1 <= total)%Z ->
        (In offset (requested_offsets total) <-> Spec.offset_in_bounds total offset))
    /\ NoDup (requested_offsets total)
    /\ requested_offsets 100 = [0; 24; 48; 72; 96]%Z
    /\ Forall (fun o => (o < 1000)%Z) (requested_offsets 2000)
    /\ requested_offsets 2000 = requested_offsets 1000.
Proof.
  intros total offset.
  assert (H : In offset (requested_offsets total)
              <-> offset = 0%Z \/ Spec.offset_in_bounds total offset).
  { unfold requested_offsets, Spec.offset_in_bounds. cbn [In].
    rewrite other_page_offsets_spec. split.
    - intros [<-|H]; [left; reflexivity | right; lia].
    - intros [->|(H0 & Hmod & Ht & Hl)]; [left; reflexivity|].
      destruct (Z.eq_dec offset 0) as [->|Hne]; [left; reflexivity|].
      right. repeat split; try assumption.
      revert Hmod. Z.div_mod_to_equations. lia. }
  split; [exact H|]. split.
  - intros Htotal. rewrite H. unfold Spec.offset_in_bounds. split.
    + intros [->|Hb]; [|exact Hb]. repeat split; first [lia | reflexivity].
    + auto.
  - split; [apply requested_offsets_nodup|]. split; [reflexivity|].
    split; [|vm_compute; reflexivity].
    apply Forall_forall. intros o Ho.
    unfold requested_offsets in Ho. cbn [In] in Ho.
    rewrite other_page_offsets_spec in Ho. lia.
Qed.

(** C3, at a declared total of 100 and the offset 96. *)
Lemma requested_offsets_bounds_witness :
  (1 <= 100)%Z
  /\ (In 96%Z (requested_offsets 100) <-> Spec.offset_in_bounds 100 96).
Proof.
  split; [lia|].
  apply (proj1 (proj2 (requested_offsets_bounds 100 96))). lia.
Defined.

(** ** C8: the declared total count *)

Lemma string_of_uint_digits (d : Decimal.uint) :
  Forall (fun c => Str.isdigit c = true)
    (list_ascii_of_string (DecimalString.NilEmpty.string_of_uint d)).
Proof. induction d; simpl; constructor; trivial. Qed.

Lemma to_uint_not_nil (n : N) : N.to_uint n <> Decimal.Nil.
Proof.
  intros H. pose proof (DecimalN.Unsigned.of_to n) as Hn.
  rewrite H in Hn. cbn in Hn. subst n. discriminate.
Qed.

Lemma of_N_nil_empty (n : N) :
  Str.of_N n = DecimalString.NilEmpty.string_of_uint (N.to_uint n).
Proof.
  unfold Str.of_N, DecimalString.NilZero.string_of_uint.
  pose proof (to_uint_not_nil n). destruct (N.to_uint n); congruence.
Qed.

Lemma of_N_digits (n : N) :
  Forall (fun c => Str.isdigit c = true) (list_ascii_of_string (Str.of_N n)).
Proof. rewrite of_N_nil_empty. apply string_of_uint_digits. Qed.

Lemma of_N_not_empty (n : N) : Str.of_N n <> "".
Proof.
  rewrite of_N_nil_empty. pose proof (to_uint_not_nil n).
  destruct (N.to_uint n); simpl; congruence.
Qed.

(** The digit loop of [int] reads a printed number back. *)
Lemma int_digits_string_of_uint (d : Decimal.uint) :
  forall (acc : N) (after_digit : bool),
    after_digit = true \/ d <> Decimal.Nil ->
    Str.int_digits acc after_digit (DecimalString.NilEmpty.string_of_uint d)
    = Some (DecimalPos.Unsigned.of_lu (Decimal.rev d)
            + acc * 10 ^ DecimalPos.Unsigned.usize d)%N.
Proof.
  induction d; intros acc after_digit Hok;
    [ destruct Hok as [->|Hnil]; [|contradiction]; simpl; f_equal; lia
    | cbn [DecimalString.NilEmpty.string_of_uint Str.int_digits];
      match goal with
      | |- context [Str.isdigit ?c] => change (Str.isdigit c) with true
      end;
      cbv iota; rewrite IHd by (left; reflexivity);
      match goal with
      | |- context [Decimal.rev (?D d)] =>
          change (Decimal.rev (D d)) with (Decimal.revapp d (D Decimal.Nil))
      end;
      rewrite DecimalPos.Unsigned.of_lu_revapp;
      match goal with
      | |- context [Str.digit_value ?c] =>
          let v := eval vm_compute in (Str.digit_value c) in
          change (Str.digit_value c) with v
      end;
      cbn [DecimalPos.Unsigned.usize DecimalPos.Unsigned.of_lu];
      rewrite N.pow_succ_r'; f_equal; lia .. ].
Qed.

Lemma digit_not_space (c : ascii) : Str.isdigit c = true -> Str.int_space c = false.
Proof.
  intros H. destruct c as [[] [] [] [] [] [] [] []]; try reflexivity; discriminate H.
Qed.

Lemma digit_not_sign (c : ascii) :
  Str.isdigit c = true ->
  Ascii.eqb c "-" = false /\ Ascii.eqb c "+" = false /\ Ascii.eqb c "," = false.
Proof.
  intros H.
  destruct c as [[] [] [] [] [] [] [] []]; try discriminate H; repeat split.
Qed.

Lemma strip_digits (s : string) :
  Forall (fun c => Str.isdigit c = true) (list_ascii_of_string s) ->
  Str.strip Str.int_space s = s.
Proof.
  intros H. unfold Str.strip.
  assert (Hl : Str.lstrip Str.int_space s = s).
  { destruct s as [|c s]; [reflexivity|]. inversion H; subst.
    simpl. rewrite digit_not_space by assumption. reflexivity. }
  rewrite Hl. induction s as [|c s IH]; [reflexivity|].
  inversion H; subst. cbn [Str.rstrip].
  rewrite IH.
  - rewrite digit_not_space by assumption. destruct s; reflexivity.
  - assumption.
  - destruct s as [|d s]; [reflexivity|].
    match goal with
    | Hs : Forall _ (list_ascii_of_string (String d s)) |- _ => inversion Hs; subst
    end.
    simpl. rewrite digit_not_space by assumption. reflexivity.
Qed.

(** [int(str(n))] is [n]. *)
Lemma int_of_N (n : N) : Str.int (Str.of_N n) = Some (Z.of_N n).
Proof.
  unfold Str.int. rewrite strip_digits by apply of_N_digits.
  pose proof (of_N_digits n) as Hd. pose proof (of_N_not_empty n) as Hne.
  destruct (Str.of_N n) as [|c body] eqn:Hs; [contradiction|].
  inversion Hd; subst.
  destruct (digit_not_sign c) as (-> & -> & _); [assumption|].
  rewrite <- Hs, of_N_nil_empty.
  rewrite int_digits_string_of_uint by (right; apply to_uint_not_nil).
  rewrite N.mul_0_l, N.add_0_r, <- DecimalPos.Unsigned.of_uint_alt.
  change (Pos.of_uint (N.to_uint n)) with (N.of_uint (N.to_uint n)).
  rewrite DecimalN.Unsigned.of_to. reflexivity.
Qed.

Lemma replace_filter (c : ascii) (l : list ascii) :
  Str.replace c "" (string_of_list_ascii l)
  = string_of_list_ascii (filter (fun x => negb (Ascii.eqb x c)) l).
Proof.
  induction l as [|a l IH]; simpl.
  - reflexivity.
  - destruct (Ascii.eqb a c); simpl; rewrite IH; reflexivity.
Qed.

Lemma filter_rev_comm {A : Type} (f : A -> bool) (l : list A) :
  filter f (rev l) = rev (filter f l).
Proof.
  induction l as [|a l IH]; simpl.
  - reflexivity.
  - rewrite filter_app, IH. simpl. destruct (f a); simpl.
    + reflexivity.
    + rewrite app_nil_r. reflexivity.
Qed.

(** Taking the commas out of the grouped digits gives the digits back. *)
Lemma filter_group3 (n : nat) :
  forall digits : list ascii,
    List.length digits <= n ->
    Forall (fun c => Str.isdigit c = true) digits ->
    filter (fun x => negb (Ascii.eqb x ",")) (Spec.group3 digits) = digits.
Proof.
  assert (Hkeep : forall c, Str.isdigit c = true ->
                            negb (Ascii.eqb c ",") = true).
  { intros c Hc. destruct (digit_not_sign c Hc) as (_ & _ & ->). reflexivity. }
  assert (Hall : forall l, Forall (fun c => Str.isdigit c = true) l ->
                           filter (fun x => negb (Ascii.eqb x ",")) l = l).
  { induction 1 as [|c l Hc _ IH]; simpl; [reflexivity|].
    rewrite Hkeep, IH by assumption. reflexivity. }
  induction n as [|n IH]; intros digits Hlen Hd.
  - destruct digits; [reflexivity | simpl in Hlen; lia].
  - destruct digits as [|a [|b [|c [|d rest]]]]; try (apply Hall; assumption).
    inversion Hd as [|? ? Ha Hd1]; subst.
    inversion Hd1 as [|? ? Hb Hd2]; subst.
    inversion Hd2 as [|? ? Hc Hd3]; subst.
    change (Spec.group3 (a :: b :: c :: d :: rest))
      with (a :: b :: c :: ","%char :: Spec.group3 (d :: rest)).
    cbn [filter]. rewrite !Hkeep by assumption.
    change (negb (Ascii.eqb "," ",")) with false. cbv iota.
    rewrite IH; [reflexivity | simpl in *; lia | assumption].
Qed.

Lemma replace_thousands (n : N) : Str.replace "," "" (Spec.thousands n) = Str.of_N n.
Proof.
  unfold Spec.thousands. rewrite replace_filter, filter_rev_comm.
  rewrite (filter_group3 (List.length (rev (list_ascii_of_string (Str.of_N n))))).
  - rewrite rev_involutive. apply string_of_list_ascii_of_string.
  - apply le_n.
  - apply Forall_rev, of_N_digits.
Qed.

Lemma parse_result_count_thousands (n : N) (out : list string) :
  parse_result_count (JStr (Spec.thousands n)) out = (out, inr (Z.of_N n)).
Proof.
  unfold parse_result_count. rewrite replace_thousands, int_of_N. reflexivity.
Qed.

(** C8 -- The declared total is read from its thousands-separated form
    before the loop uses it: for every count [n], the string that writes [n]
    with thousands separators parses to [n] (["1,234"] to 1234), and when the
    first page declares it, the pages [scrape_search] goes on to request are
    those of the offsets computed from [n]. *)
Theorem result_count_parsed_before_pagination :
  forall (lib : Library) (n : N) (out : list string),
    parse_result_count (JStr (Spec.thousands n)) out = (out, inr (Z.of_N n))
    /\ parse_result_count (JStr "1,234") out = (out, inr 1234%Z)
    /\ forall (net : Net) (order : list nat) (location_id : string)
              (first : Response) (members : list (string * json))
              (properties : json),
         net (make_url location_id 0) = inr first ->
         json_loads (content first) = Some (JObj members) ->
         dict_get "resultCount" members = Some (JStr (Spec.thousands n)) ->
         dict_get "properties" members = Some properties ->
         scrape_search net order location_id out
         = merge_other_pages
             (as_completed order
                (map (fun offset => net (make_url location_id offset))
                   (other_page_offsets (Z.of_N n))))
             properties out.
Proof.
  intros lib n out. split; [apply parse_result_count_thousands|].
  split; [reflexivity|].
  intros net order location_id first members properties Hnet Hjson Hcount Hprops.
  unfold scrape_search, bind. rewrite Hnet. simpl. rewrite Hjson. simpl.
  rewrite Hcount. simpl.
  pose proof (parse_result_count_thousands n out) as Hparse.
  unfold parse_result_count in Hparse. rewrite Hparse, Hprops. reflexivity.
Qed.

(** C8, at a first page that declares ["1,234"] results. *)
Lemma result_count_parsed_before_pagination_witness :
  Spec.thousands 1234 = "1,234"
  /\ scrape_search (lib := Sample.library) (Sample.search_site "1,234") [] Sample.region []
     = merge_other_pages (lib := Sample.library)
         (as_completed []
            (map (fun offset => Sample.search_site "1,234"
                                  (make_url Sample.region offset))
               (other_page_offsets 1234)))
         (JArr [Sample.summary 1; Sample.summary 2]) [].
Proof.
  split; [reflexivity|].
  eapply (proj2 (proj2 (result_count_parsed_before_pagination
                          Sample.library 1234 []))).
  - reflexivity.
  - vm_compute. reflexivity.
  - reflexivity.
  - reflexivity.
Defined.

(** ** C9: page 0 comes first *)

Section Merge.

Context {lib : Library}.

(** A step of the merge loop that succeeds has appended to the list. *)
Lemma merge_step_appends (items : list json) (response : exn + Response)
      (out out' : list string) (merged : json) :
  merge_step (JArr items) response out = (out', inr merged) ->
  exists more, merged = JArr (items ++ more).
Proof.
  unfold merge_step, bind. destruct response as [e|response]; simpl.
  - discriminate.
  - destruct (json_loads (text response)) as [data|]; simpl; [|discriminate].
    unfold bind.
    destruct (getitem data "properties" out) as [o [e|properties]];
      [discriminate|].
    destruct (iterate properties o) as [o' [e|more]]; [discriminate|].
    simpl. intros H. inversion H; subst. eauto.
Qed.

Lemma merge_other_pages_prefix (completed : list (exn + Response)) :
  forall (items : list json) (out out' : list string) (merged : json),
    merge_other_pages completed (JArr items) out = (out', inr merged) ->
    exists later, merged = JArr (items ++ later).
Proof.
  unfold merge_other_pages.
  induction completed as [|response completed IH]; intros items out out' merged.
  - simpl. intros H. inversion H; subst. exists []. rewrite app_nil_r. reflexivity.
  - cbn [for_each]. unfold bind at 1.
    destruct (merge_step (JArr items) response out) as [o [e|results]] eqn:Hstep;
      [discriminate|].
    destruct (merge_step_appends _ _ _ _ _ Hstep) as (more & ->).
    intros H. destruct (IH _ _ _ _ H) as (later & ->).
    exists (more ++ later). rewrite app_assoc. reflexivity.
Qed.

Lemma merge_other_pages_lists (pages : list Response) (later : list (list json)) :
  Forall2 Spec.lists pages later ->
  forall (items : list json) (out : list string),
    merge_other_pages (map inr pages) (JArr items) out
    = (out, inr (JArr (items ++ concat later))).
Proof.
  unfold merge_other_pages.
  induction 1 as [|page more pages later (members & Hjson & Hprops) _ IH];
    intros items out.
  - simpl. rewrite app_nil_r. reflexivity.
  - cbn [map for_each concat]. unfold bind at 1.
    assert (Hstep : merge_step (JArr items) (inr page) out
                    = (out, inr (JArr (items ++ more)))).
    { unfold merge_step, bind. simpl. rewrite Hjson. simpl.
      unfold bind. simpl. rewrite Hprops. reflexivity. }
    rewrite Hstep, IH, app_assoc. reflexivity.
Qed.

End Merge.

(** C9 -- When the first page lists [page0] under [properties], whatever
    [scrape_search] returns begins with [page0]: the summaries of page 0 are a
    prefix of the merged list.  And it does return when the later pages all
    arrive and list their summaries: the merged list is [page0] followed by
    the lists of the later pages in the order in which those pages
    completed. *)
Theorem scrape_search_first_page_is_prefix :
  forall (lib : Library) (net : Net) (order : list nat) (location_id : string)
         (out : list string) (first : Response) (members : list (string * json))
         (count : string) (total : Z) (page0 : list json),
    net (make_url location_id 0) = inr first ->
    json_loads (content first) = Some (JObj members) ->
    dict_get "resultCount" members = Some (JStr count) ->
    Str.int (Str.replace "," "" count) = Some total ->
    dict_get "properties" members = Some (JArr page0) ->
    (forall out' merged,
        scrape_search net order location_id out = (out', inr merged) ->
        exists later, merged = JArr (page0 ++ later))
    /\ (forall (pages : list Response) (later : list (list json)),
          as_completed order
            (map (fun offset => net (make_url location_id offset))
               (other_page_offsets total))
          = map inr pages ->
          Forall2 Spec.lists pages later ->
          scrape_search net order location_id out
          = (out, inr (JArr (page0 ++ concat later)))).
Proof.
  intros lib net order location_id out first members count total page0
         Hnet Hjson Hcount Hint Hprops.
  assert (Hrun : scrape_search net order location_id out
                 = merge_other_pages
                     (as_completed order
                        (map (fun offset => net (make_url location_id offset))
                           (other_page_offsets total)))
                     (JArr page0) out).
  { unfold scrape_search, bind. rewrite Hnet. simpl. rewrite Hjson. simpl.
    rewrite Hcount. simpl. rewrite Hint. simpl. rewrite Hprops. reflexivity. }
  rewrite Hrun. split.
  - intros out' merged H. apply (merge_other_pages_prefix _ _ _ _ _ H).
  - intros pages later Hcompleted Hlists. rewrite Hcompleted.
    apply merge_other_pages_lists, Hlists.
Qed.

(** C9, at the sample search of three pages: the two later pages complete in
    either order, and page 0 comes first in both. *)
Lemma scrape_search_first_page_is_prefix_witness :
  scrape_search (lib := Sample.library) Sample.site [0; 1] Sample.region []
  = ([], inr (JArr (map Sample.summary [1; 2; 3; 4; 5]%Z)))
  /\ scrape_search (lib := Sample.library) Sample.site [1; 0] Sample.region []
     = ([], inr (JArr (map Sample.summary [1; 2; 4; 5; 3]%Z))).
Proof.
  assert (Hlists3 : Spec.lists (lib := Sample.library)
                      (Sample.page (make_url Sample.region 24)
                         (Sample.search_json "50" [3]%Z))
                      [Sample.summary 3]).
  { eexists. split; [vm_compute; reflexivity | reflexivity]. }
  assert (Hlists45 : Spec.lists (lib := Sample.library)
                       (Sample.page (make_url Sample.region 48)
                          (Sample.search_json "50" [4; 5]%Z))
                       [Sample.summary 4; Sample.summary 5]).
  { eexists. split; [vm_compute; reflexivity | reflexivity]. }
  split.
  - refine (proj2 (scrape_search_first_page_is_prefix Sample.library Sample.site
                     [0; 1] Sample.region []
                     (Sample.page (make_url Sample.region 0)
                        (Sample.search_json "50" [1; 2]%Z))
                     [("resultCount", JStr "50");
                      ("properties", JArr [Sample.summary 1; Sample.summary 2])]
                     "50" 50 [Sample.summary 1; Sample.summary 2]
                     eq_refl _ eq_refl eq_refl eq_refl)
              [_; _] [[Sample.summary 3]; [Sample.summary 4; Sample.summary 5]]
              eq_refl _).
    + vm_compute. reflexivity.
    + constructor; [exact Hlists3|]. constructor; [exact Hlists45|]. constructor.
  - refine (proj2 (scrape_search_first_page_is_prefix Sample.library Sample.site
                     [1; 0] Sample.region []
                     (Sample.page (make_url Sample.region 0)
                        (Sample.search_json "50" [1; 2]%Z))
                     [("resultCount", JStr "50");
                      ("properties", JArr [Sample.summary 1; Sample.summary 2])]
                     "50" 50 [Sample.summary 1; Sample.summary 2]
                     eq_refl _ eq_refl eq_refl eq_refl)
              [_; _] [[Sample.summary 4; Sample.summary 5]; [Sample.summary 3]]
              eq_refl _).
    + vm_compute. reflexivity.
    + constructor; [exact Hlists45|]. constructor; [exact Hlists3|]. constructor.
Defined.

(** * Further properties *)

(** ** parse_property: what the fields hold *)

Lemma project_get (key : string) (node : JMESPath.expr) (data : json) :
  In (key, node) Spec.parsed_map ->
  dict_get key (Spec.project data) = Some (JMESPath.visit node data).
Proof.
  intros Hin. apply dict_get_in.
  - rewrite project_keys. apply parse_map_keys_nodup.
  - unfold Spec.project.
    change (key, JMESPath.visit node data)
      with ((fun kv : string * JMESPath.expr =>
               (fst kv, JMESPath.visit (snd kv) data)) (key, node)).
    apply in_map. exact Hin.
Qed.

(** X1 -- A value that is not a JSON object (a list, a string, a number,
    null) and the empty object are projected to the record whose 27 fields
    are all null: [parse_property] neither raises nor tells them apart. *)
Theorem parse_property_non_object :
  forall (data : json) (out : list string),
    Props.is_object data = false \/ data = JObj [] ->
    parse_property data out = (out, inr Spec.null_record).
Proof.
  intros data out H. rewrite parse_property_run.
  destruct H as [H | ->]; [|vm_compute; reflexivity].
  destruct data; try discriminate H; vm_compute; reflexivity.
Qed.

(** X1, at a list. *)
Lemma parse_property_non_object_witness :
  parse_property (JArr [JInt 1; JStr "x"]) [] = ([], inr Spec.null_record).
Proof.
  apply (parse_property_non_object (JArr [JInt 1; JStr "x"]) []).
  left. reflexivity.
Defined.

Lemma visit_fields (names : list string) :
  forall data,
    fold_left (fun result child => JMESPath.visit child result)
      (map JMESPath.Field names) data
    = Props.get_path names data.
Proof.
  induction names as [|name rest IH]; intros data.
  - reflexivity.
  - cbn [map fold_left Props.get_path JMESPath.visit].
    destruct data; try (rewrite IH; destruct rest; reflexivity).
    destruct (dict_get name members); [apply IH|].
    rewrite IH. destruct rest; reflexivity.
Qed.

Lemma visit_dotted (names : list string) (data : json) :
  JMESPath.visit (Props.dotted names) data = Props.get_path names data.
Proof.
  destruct names as [|name [|second rest]].
  - reflexivity.
  - simpl. destruct data; reflexivity.
  - unfold Props.dotted. cbn [JMESPath.visit]. apply visit_fields.
Qed.

(** X2 -- A field whose expression is a dotted path of names holds what the
    nested [dict] lookups along those names find in the object, and null as
    soon as one of them finds nothing. *)
Theorem parse_property_dotted_path :
  forall (data : json) (out : list string) (key path : string)
         (names : list string),
    In (key, path) parse_map ->
    JMESPath.compile path = Some (Props.dotted names) ->
    exists record : PropertyResult,
      parse_property data out = (out, inr record)
      /\ dict_get key record = Some (Props.get_path names data).
Proof.
  intros data out key path names Hin Hc.
  exists (Spec.project data). split; [apply parse_property_run|].
  rewrite <- visit_dotted. apply project_get.
  eapply parsed_map_in; eassumption.
Qed.

(** X2, at the field [available] of a published listing. *)
Lemma parse_property_dotted_path_witness :
  exists record : PropertyResult,
    parse_property (JObj [("status", JObj [("published", JBool true)])]) []
    = ([], inr record)
    /\ dict_get "available" record = Some (JBool true).
Proof.
  refine (parse_property_dotted_path
            (JObj [("status", JObj [("published", JBool true)])]) []
            "available" "status.published" ["status"; "published"] _ _).
  - simpl. tauto.
  - vm_compute. reflexivity.
Defined.

Lemma keys_dict_set_fresh {V : Type} (k : string) (v : V) (d : list (string * V)) :
  ~ In k (keys d) -> keys (dict_set k v d) = keys d ++ [k].
Proof.
  induction d as [|[k' v'] d IH]; simpl; intros Hfresh.
  - reflexivity.
  - destruct (String.eqb_spec k k') as [->|Hne].
    + exfalso. apply Hfresh. left. reflexivity.
    + simpl. f_equal. apply IH. intros Hin. apply Hfresh. right. exact Hin.
Qed.

Lemma multi_select_keys (value : json) (pairs : list (string * JMESPath.expr)) :
  forall collected : list (string * json),
    NoDup (keys collected ++ keys pairs) ->
    keys (fold_left
            (fun collected kv =>
               dict_set (fst kv) (JMESPath.visit (snd kv) value) collected)
            pairs collected)
    = keys collected ++ keys pairs.
Proof.
  induction pairs as [|[k e] pairs IH]; intros collected Hnd.
  - simpl. rewrite app_nil_r. reflexivity.
  - cbn [fold_left fst snd]. rewrite IH.
    + rewrite keys_dict_set_fresh.
      * rewrite <- app_assoc. reflexivity.
      * apply NoDup_remove_2 in Hnd. intros Hin. apply Hnd.
        apply in_or_app. left. exact Hin.
    + rewrite keys_dict_set_fresh.
      * rewrite <- app_assoc. exact Hnd.
      * apply NoDup_remove_2 in Hnd. intros Hin. apply Hnd.
        apply in_or_app. left. exact Hin.
Qed.

Lemma projection_reshaped (lhs : JMESPath.expr)
      (pairs : list (string * JMESPath.expr)) (value : json) :
  NoDup (keys pairs) ->
  Props.reshaped (keys pairs)
    (JMESPath.visit (JMESPath.Projection lhs (JMESPath.MultiSelectDict pairs)) value).
Proof.
  intros Hnd. cbn [JMESPath.visit].
  destruct (JMESPath.visit lhs value); try (left; reflexivity).
  right. eexists. split; [reflexivity|].
  apply Forall_forall. intros item Hin.
  apply filter_In in Hin. destruct Hin as (Hin & Hnonnull).
  apply in_map_iff in Hin. destruct Hin as (element & <- & _).
  cbn [JMESPath.visit] in *.
  destruct element; try discriminate Hnonnull;
    (eexists; split; [reflexivity|]; apply (multi_select_keys _ pairs []); exact Hnd).
Qed.

Lemma projection_null_free (lhs rhs : JMESPath.expr) (value : json) :
  Props.null_free (JMESPath.visit (JMESPath.Projection lhs rhs) value).
Proof.
  cbn [JMESPath.visit].
  destruct (JMESPath.visit lhs value); try (left; reflexivity).
  right. eexists. split; [reflexivity|].
  apply Forall_forall. intros item Hin.
  apply filter_In in Hin. destruct Hin as (_ & Hnonnull).
  intros ->. discriminate Hnonnull.
Qed.

Ltac in_table := unfold Spec.parsed_map; repeat (first [left; reflexivity | right]).

Ltac distinct_keys :=
  repeat (constructor; [simpl; intuition discriminate|]); constructor.

(** X3 -- The list-valued fields have a fixed shape: [photos] and
    [floorplans] are null or a list of objects with exactly the keys [url]
    and [caption]; [nearest_airports] and [nearest_stations], [name] and
    [distance]; [sizings], [unit], [min] and [max]; [industryAffiliations] is
    null or a list without a null in it. *)
Theorem parse_property_list_fields :
  forall (data : json) (out : list string),
    exists record : PropertyResult,
      parse_property data out = (out, inr record)
      /\ (forall field, In field ["photos"; "floorplans"] ->
            exists v, dict_get field record = Some v
                      /\ Props.reshaped ["url"; "caption"] v)
      /\ (forall field, In field ["nearest_airports"; "nearest_stations"] ->
            exists v, dict_get field record = Some v
                      /\ Props.reshaped ["name"; "distance"] v)
      /\ (exists v, dict_get "sizings" record = Some v
                    /\ Props.reshaped ["unit"; "min"; "max"] v)
      /\ (exists v, dict_get "industryAffiliations" record = Some v
                    /\ Props.null_free v).
Proof.
  intros data out. exists (Spec.project data).
  split; [apply parse_property_run|]. repeat split.
  - intros field [<-|[<-|[]]]; eexists;
      (split; [apply project_get; in_table|]);
      apply (projection_reshaped _
               [("url", JMESPath.Field "url"); ("caption", JMESPath.Field "caption")]);
      distinct_keys.
  - intros field [<-|[<-|[]]]; eexists;
      (split; [apply project_get; in_table|]);
      apply (projection_reshaped _
               [("name", JMESPath.Field "name");
                ("distance", JMESPath.Field "distance")]);
      distinct_keys.
  - eexists. split; [apply project_get; in_table|].
    apply (projection_reshaped _
             [("unit", JMESPath.Field "unit"); ("min", JMESPath.Field "minimumSize");
              ("max", JMESPath.Field "maximumSize")]).
    distinct_keys.
  - eexists. split; [apply project_get; in_table|].
    apply projection_null_free.
Qed.

(** X4 -- The field [agency] is null when the object has no [customer] (or a
    null one); otherwise it is an object with the seven keys of the table, in
    order, each holding what [customer] has under the source name, null
    where [customer] lacks it or is not an object. *)
Theorem parse_property_agency :
  forall (data : json) (out : list string),
    exists record : PropertyResult,
      parse_property data out = (out, inr record)
      /\ dict_get "agency" record
         = Some (let customer := Props.get_path ["customer"] data in
                 if JMESPath.is_null customer then JNull
                 else JObj [("id", Props.get_path ["branchId"] customer);
                            ("branch", Props.get_path ["branchName"] customer);
                            ("company", Props.get_path ["companyName"] customer);
                            ("address", Props.get_path ["displayAddress"] customer);
                            ("commercial", Props.get_path ["commercial"] customer);
                            ("buildToRent", Props.get_path ["buildToRent"] customer);
                            ("isNew",
                             Props.get_path ["isNewHomeDeveloper"] customer)]).
Proof.
  intros data out. exists (Spec.project data).
  split; [apply parse_property_run|].
  erewrite project_get by in_table. f_equal.
  cbn [JMESPath.visit fold_left Props.get_path].
  destruct data; try reflexivity.
  destruct (dict_get "customer" members) as [customer|]; [|reflexivity].
  destruct customer; reflexivity.
Qed.

(** ** extract_property: what it prints and what it raises *)

Lemma contains_split1 (sep s : string) :
  Str.contains sep s = true -> exists before after, Str.split1 sep s = [before; after].
Proof.
  induction s as [|c s IH]; intros H.
  - cbn [Str.contains Str.split1] in *. rewrite orb_false_r in H. rewrite H. eauto.
  - cbn [Str.contains Str.split1] in *.
    destruct (prefix sep (String c s)); [eauto|].
    destruct (IH H) as (before & after & ->). eauto.
Qed.

Lemma existsb_find {A : Type} (p : A -> bool) (l : list A) :
  existsb p l = true -> exists x, find p l = Some x /\ p x = true.
Proof.
  induction l as [|a l IH]; simpl; intros H.
  - discriminate.
  - destruct (p a) eqn:Ha; [eauto|]. apply IH. exact H.
Qed.

Section ExtractionMore.

Context {lib : Library}.

(** A page with the marker always has a text after the marker. *)
Lemma has_marker_page_model (response : Response) :
  Spec.has_marker response = true -> exists source, Spec.page_model response = Some source.
Proof.
  intros H. unfold Spec.has_marker in H.
  destruct (existsb_find _ _ H) as (script & Hfind & Hc).
  destruct (contains_split1 _ _ Hc) as (before & after & Hsplit).
  unfold Spec.page_model, xpath_get. rewrite Hfind, Hsplit. simpl. eauto.
Qed.

(** A batch that contains an outcome on which the loop body always fails,
    fails. *)
Lemma scrape_properties_fails (net : Net) (order : list nat) (urls : list string)
      (outcome : exn + Response) :
  schedule (List.length urls) order ->
  In outcome (map net urls) ->
  (forall acc out, exists out' e, scrape_step acc outcome out = (out', inl e)) ->
  forall out, exists out' e, scrape_properties net order urls out = (out', inl e).
Proof.
  intros Hs Hin Hfail out. unfold scrape_properties. cbv zeta.
  apply for_each_fails with (x := outcome); [exact Hfail|].
  assert (Hs' : schedule (List.length (map net urls)) order)
    by (rewrite length_map; exact Hs).
  apply (Permutation_in _ (Permutation_sym (as_completed_permutation _ _ Hs'))).
  exact Hin.
Qed.

End ExtractionMore.

(** X5 -- [extract_property] prints exactly when the page has no script with
    the marker: then it prints the one diagnostic line and returns [None].
    On a page with the marker it prints nothing, the text after the marker
    exists, and whatever it raises, it is never the [IndexError] of the
    subscript [[1]]. *)
Theorem extract_property_output :
  forall (lib : Library) (response : Response) (out : list string),
    exists out' result,
      extract_property response out = (out', result)
      /\ result <> inl IndexError
      /\ ((Spec.has_marker response = false
           /\ out' = out ++ [Spec.diagnostic response]
           /\ result = inr JNull)
          \/ (Spec.has_marker response = true
              /\ out' = out
              /\ exists source, Spec.page_model response = Some source)).
Proof.
  intros lib response out. destruct (Spec.has_marker response) eqn:Hm.
  - destruct (has_marker_page_model response Hm) as (source & Hsrc).
    rewrite (extract_page_model _ _ out Hsrc). unfold bind.
    destruct (json_loads source) as [data|]; simpl.
    + destruct data; simpl;
        try (eexists; eexists; split; [reflexivity|];
             split; [discriminate | right; eauto]).
      destruct (dict_get "propertyData" members); simpl;
        (eexists; eexists; split; [reflexivity|];
         split; [discriminate | right; eauto]).
    + eexists. eexists. split; [reflexivity|].
      split; [discriminate | right; eauto].
  - rewrite (extract_no_marker _ out Hm).
    eexists. eexists. split; [reflexivity|]. split; [discriminate|]. left. auto.
Qed.

(** X6 -- When the text after the marker decodes to something without the
    key [propertyData], [extract_property] raises: [KeyError] for an object,
    [TypeError] for any other JSON value.  Nothing catches it: a batch that
    contains the page never returns. *)
Theorem extract_property_missing_property_data :
  forall (lib : Library) (response : Response) (source : string)
         (decoded : json) (out : list string),
    Spec.page_model response = Some source ->
    json_loads source = Some decoded ->
    (forall d, decoded = JObj d -> dict_get "propertyData" d = None) ->
    extract_property response out
    = (out, inl (if Props.is_object decoded then KeyError "propertyData"
                 else TypeError))
    /\ forall (net : Net) (order : list nat) (urls : list string),
         schedule (List.length urls) order ->
         In (inr response) (map net urls) ->
         exists out' e, scrape_properties net order urls out = (out', inl e).
Proof.
  intros lib response source decoded out Hsrc Hjson Hkey.
  assert (Hextract : forall o,
             extract_property response o
             = (o, inl (if Props.is_object decoded then KeyError "propertyData"
                        else TypeError))).
  { intros o. rewrite (extract_page_model _ _ o Hsrc). unfold bind.
    rewrite Hjson. simpl. destruct decoded; try reflexivity.
    simpl. rewrite (Hkey _ eq_refl). reflexivity. }
  split; [apply Hextract|].
  intros net order urls Hs Hin.
  apply (scrape_properties_fails net order urls (inr response) Hs Hin).
  intros acc o. unfold scrape_step. simpl. unfold bind. simpl.
  rewrite Hextract. eauto.
Qed.

(** X6, at a page whose embedded object is empty. *)
Lemma extract_property_missing_property_data_witness :
  extract_property (lib := Sample.library)
    (Sample.page "u" (Sample.html_with "window.PAGE_MODEL = {}")) []
  = ([], inl (KeyError "propertyData")).
Proof.
  refine (proj1 (extract_property_missing_property_data Sample.library
                   (Sample.page "u" (Sample.html_with "window.PAGE_MODEL = {}"))
                   "{}" (JObj []) [] _ _ _)).
  - vm_compute. reflexivity.
  - vm_compute. reflexivity.
  - intros d Hd. inversion Hd. reflexivity.
Defined.

(** ** scrape_properties: failures and the order of the records *)

(** X7 -- A fetch that fails takes the whole batch with it: whatever the
    completion order, [scrape_properties] raises and returns no record; when
    the failed request is the first to complete, the caller sees its error
    and nothing has been printed. *)
Theorem scrape_properties_fetch_failure :
  forall (lib : Library) (net : Net) (order : list nat) (urls : list string)
         (u : string) (e : exn) (out : list string),
    schedule (List.length urls) order ->
    In u urls ->
    net u = inl e ->
    (exists out' e', scrape_properties net order urls out = (out', inl e'))
    /\ (forall rest,
          as_completed order (map net urls) = inl e :: rest ->
          scrape_properties net order urls out = (out, inl e)).
Proof.
  intros lib net order urls u e out Hs Hin Hnet. split.
  - apply (scrape_properties_fails net order urls (inl e) Hs).
    + rewrite <- Hnet. apply in_map. exact Hin.
    + intros acc o. eexists. eexists. reflexivity.
  - intros rest Hfirst. unfold scrape_properties. cbv zeta.
    rewrite Hfirst. reflexivity.
Qed.

(** X7, at the sample site and a URL it does not serve. *)
Lemma scrape_properties_fetch_failure_witness :
  scrape_properties (lib := Sample.library) Sample.site [1; 0]
    [Sample.listing_url; "https://www.rightmove.co.uk/properties/0#/"] []
  = ([], inl HTTPError).
Proof.
  refine (proj2 (scrape_properties_fetch_failure Sample.library Sample.site [1; 0]
                   [Sample.listing_url; "https://www.rightmove.co.uk/properties/0#/"]
                   "https://www.rightmove.co.uk/properties/0#/" HTTPError []
                   sample_schedule _ _) [inr Sample.listing_page] _).
  - right. left. reflexivity.
  - reflexivity.
  - reflexivity.
Defined.

Lemma Forall2_functional {A B : Type} (R : A -> B -> Prop) :
  (forall a b b', R a b -> R a b' -> b = b') ->
  forall l r r', Forall2 R l r -> Forall2 R l r' -> r = r'.
Proof.
  intros Hfun l r r' H. revert r'.
  induction H as [|a b l r Hab _ IH]; intros r' H'; inversion H'; subst.
  - reflexivity.
  - f_equal; [eapply Hfun; eassumption | apply IH; assumption].
Qed.

Lemma Forall2_images {A B : Type} (R : A -> B -> Prop) (l : list A) :
  (forall a, In a l -> exists b, R a b) -> exists r, Forall2 R l r.
Proof.
  induction l as [|a l IH]; intros H.
  - exists []. constructor.
  - destruct (H a (or_introl eq_refl)) as (b & Hb).
    destruct IH as (r & Hr); [intros a' Hin; apply H; right; exact Hin|].
    exists (b :: r). constructor; assumption.
Qed.

(** Related lists over permuted lists are permuted, for a functional
    relation. *)
Lemma Forall2_permutation {A B : Type} (R : A -> B -> Prop) :
  (forall a b b', R a b -> R a b' -> b = b') ->
  forall l1 l2, Permutation l1 l2 ->
  forall r1 r2, Forall2 R l1 r1 -> Forall2 R l2 r2 -> Permutation r1 r2.
Proof.
  intros Hfun l1 l2 Hperm.
  induction Hperm as [|x l l' _ IH|x y l|l l' l'' H1 IH1 H2 IH2]; intros r1 r2 F1 F2.
  - inversion F1; inversion F2; subst. constructor.
  - inversion F1; inversion F2; subst.
    replace y0 with y by (eapply Hfun; eassumption).
    apply perm_skip. apply IH; assumption.
  - inversion F1 as [|? by1 ? t1 Hy1 F1']; subst.
    inversion F1' as [|? bx1 ? t1' Hx1 F1'']; subst.
    inversion F2 as [|? bx2 ? t2 Hx2 F2']; subst.
    inversion F2' as [|? by2 ? t2' Hy2 F2'']; subst.
    replace bx2 with bx1 by (eapply Hfun; eassumption).
    replace by2 with by1 by (eapply Hfun; eassumption).
    replace t2' with t1' by (eapply Forall2_functional; eassumption).
    apply perm_swap.
  - destruct (Forall2_images R l') as (r' & F').
    { intros a Hin.
      destruct (Forall2_in_left F1 a (Permutation_in _ (Permutation_sym H1) Hin))
        as (b & _ & Hb).
      eauto. }
    apply perm_trans with r'; [apply IH1 | apply IH2]; assumption.
Qed.

Lemma map_inr_injective {E A : Type} (l l' : list A) :
  map (@inr E A) l = map (@inr E A) l' -> l = l'.
Proof.
  revert l'. induction l as [|a l IH]; intros [|a' l'] H; try discriminate.
  - reflexivity.
  - simpl in H. inversion H; subst. f_equal. apply IH. assumption.
Qed.

Lemma fetched_pairwise (net : Net) (urls : list string) (pages : list Response) :
  map net urls = map inr pages ->
  Forall2 (fun u page => net u = inr page) urls pages.
Proof.
  revert pages. induction urls as [|u urls IH]; intros [|page pages] H;
    try discriminate.
  - constructor.
  - simpl in H. inversion H. constructor; [assumption | apply IH; assumption].
Qed.

Lemma Forall2_compose {A B C : Type} (R : A -> B -> Prop) (S : B -> C -> Prop)
      (l : list A) (m : list B) :
  Forall2 R l m -> forall r, Forall2 S m r ->
  Forall2 (fun a c => exists b, R a b /\ S b c) l r.
Proof.
  induction 1 as [|a b l m Hab _ IH]; intros r Hr; inversion Hr; subst.
  - constructor.
  - constructor; [eauto | apply IH; assumption].
Qed.

Section Orders.

Context {lib : Library}.

Lemma contributes_functional (response : Response) (a b : PropertyResult) :
  Spec.contributes response a -> Spec.contributes response b -> a = b.
Proof.
  intros [[Hno ->]|(d & Hd & ->)] [[Hno' ->]|(d' & Hd' & ->)].
  - reflexivity.
  - rewrite (embeds_has_marker Hd') in Hno. discriminate.
  - rewrite (embeds_has_marker Hd) in Hno'. discriminate.
  - rewrite (embeds_functional Hd Hd'). reflexivity.
Qed.

End Orders.

Section Printed.

Context {lib : Library}.

(** The loop over pages that all contribute a record, with exactly what it
    prints. *)
Lemma scrape_loop_prints (responses : list Response) (records : list PropertyResult) :
  Forall2 Spec.contributes responses records ->
  forall properties out,
    for_each (map inr responses) scrape_step properties out
    = (out ++ printed_diagnostics responses, inr (properties ++ records)).
Proof.
  induction 1 as [|r record rs recs Hc _ IH]; intros properties out.
  - simpl. rewrite !app_nil_r. reflexivity.
  - cbn [map for_each]. unfold bind at 1.
    assert (Hstep : scrape_step properties (inr r) out
                    = (out ++ (if Spec.has_marker r then []
                               else [Spec.diagnostic r]),
                       inr (properties ++ [record]))).
    { destruct Hc as [[Hno ->]|(data & Hemb & ->)]; unfold scrape_step; simpl.
      - unfold bind at 1. simpl. unfold bind.
        rewrite (extract_no_marker _ _ Hno), parse_property_run, project_null, Hno.
        reflexivity.
      - unfold bind at 1. simpl. unfold bind.
        rewrite (extract_embeds _ Hemb), parse_property_run.
        rewrite (embeds_has_marker Hemb), app_nil_r. reflexivity. }
    rewrite Hstep, IH. unfold printed_diagnostics. cbn [flat_map].
    rewrite <- !app_assoc. reflexivity.
Qed.

End Printed.

(** X8 -- The completion order decides two orders and nothing else: over
    digestible pages, two runs of [scrape_properties] under two schedules both
    return; each has printed, after what was printed before, the diagnostics
    of the pages without the marker in the order in which they completed;
    the records of one run are a permutation of the records of the other, and
    so are the lines printed. *)
Theorem scrape_properties_schedule_independent :
  forall (lib : Library) (net : Net) (order1 order2 : list nat)
         (urls : list string) (out : list string),
    schedule (List.length urls) order1 ->
    schedule (List.length urls) order2 ->
    (forall u, In u urls -> exists r, net u = inr r /\ Spec.digestible r) ->
    exists pages records1 records2,
      map net urls = map inr pages
      /\ scrape_properties net order1 urls out
         = (out ++ printed_diagnostics (as_completed order1 pages), inr records1)
      /\ scrape_properties net order2 urls out
         = (out ++ printed_diagnostics (as_completed order2 pages), inr records2)
      /\ Permutation records1 records2
      /\ Permutation (printed_diagnostics (as_completed order1 pages))
           (printed_diagnostics (as_completed order2 pages)).
Proof.
  intros lib net order1 order2 urls out Hs1 Hs2 Hall.
  destruct (fetched_pages net urls Hall) as (pages & Hmap & Hd).
  assert (Hlen : List.length pages = List.length urls).
  { pose proof (f_equal (@List.length _) Hmap) as H.
    rewrite !length_map in H. symmetry. exact H. }
  rewrite <- Hlen in Hs1, Hs2.
  pose proof (as_completed_permutation order1 pages Hs1) as Hperm1.
  pose proof (as_completed_permutation order2 pages Hs2) as Hperm2.
  assert (Hperm : Permutation (as_completed order1 pages) (as_completed order2 pages))
    by (apply (Permutation_trans Hperm1 (Permutation_sym Hperm2))).
  destruct (all_contribute (as_completed order1 pages)) as (records1 & Hrecs1).
  { rewrite Forall_forall in *. intros r Hin. apply Hd.
    apply (Permutation_in _ Hperm1 Hin). }
  destruct (all_contribute (as_completed order2 pages)) as (records2 & Hrecs2).
  { rewrite Forall_forall in *. intros r Hin. apply Hd.
    apply (Permutation_in _ Hperm2 Hin). }
  exists pages, records1, records2. split; [exact Hmap|].
  split; [|split; [|split]].
  - unfold scrape_properties. cbv zeta. rewrite Hmap, as_completed_map.
    apply (scrape_loop_prints _ _ Hrecs1 [] out).
  - unfold scrape_properties. cbv zeta. rewrite Hmap, as_completed_map.
    apply (scrape_loop_prints _ _ Hrecs2 [] out).
  - apply (Forall2_permutation _ contributes_functional _ _ Hperm _ _ Hrecs1 Hrecs2).
  - unfold printed_diagnostics. apply Permutation_flat_map. exact Hperm.
Qed.

(** X8, at the sample batch under its two schedules. *)
Lemma scrape_properties_schedule_independent_witness :
  exists records1 records2,
    scrape_properties (lib := Sample.library) Sample.site [1; 0]
      [Sample.listing_url; Sample.other_url] []
    = ([Spec.diagnostic Sample.other_page], inr records1)
    /\ scrape_properties (lib := Sample.library) Sample.site [0; 1]
         [Sample.listing_url; Sample.other_url] []
       = ([Spec.diagnostic Sample.other_page], inr records2)
    /\ Permutation records1 records2.
Proof.
  destruct (scrape_properties_schedule_independent Sample.library Sample.site
              [1; 0] [0; 1] [Sample.listing_url; Sample.other_url] []
              sample_schedule (Permutation_refl _) sample_batch_digestible)
    as (pages & records1 & records2 & Hmap & H1 & H2 & Hperm & _).
  assert (Hpages : pages = [Sample.listing_page; Sample.other_page]).
  { apply (map_inr_injective (E := exn)). rewrite <- Hmap. reflexivity. }
  subst pages. exists records1, records2.
  split; [exact H1|]. split; [exact H2 | exact Hperm].
Defined.

(** X9 -- When the requests complete in the order in which they were
    dispatched, the records come in the order of the URLs: the record at each
    position is the one the page of the URL at that position contributes. *)
Theorem scrape_properties_in_dispatch_order :
  forall (lib : Library) (net : Net) (urls : list string) (out : list string),
    (forall u, In u urls -> exists r, net u = inr r /\ Spec.digestible r) ->
    exists out' records,
      scrape_properties net (seq 0 (List.length urls)) urls out
      = (out', inr records)
      /\ Forall2 (fun u record =>
                    exists page, net u = inr page /\ Spec.contributes page record)
           urls records.
Proof.
  intros lib net urls out Hall.
  destruct (scrape_properties_digestible net (seq 0 (List.length urls)) urls out
              (Permutation_refl _) Hall)
    as (pages & c & records & out' & Hmap & -> & _ & Hrecs & Hrun & _).
  exists out', records. split; [exact Hrun|].
  assert (Hlen : List.length pages = List.length urls).
  { pose proof (f_equal (@List.length _) Hmap) as H.
    rewrite !length_map in H. symmetry. exact H. }
  rewrite <- Hlen in Hrecs.
  pose proof (as_completed_in_order [] pages) as Hid. cbn [List.length app] in Hid.
  rewrite Hid in Hrecs.
  apply (Forall2_compose _ _ _ _ (fetched_pairwise net urls pages Hmap) _ Hrecs).
Qed.

(** X9, at the sample batch. *)
Lemma scrape_properties_in_dispatch_order_witness :
  exists out' records,
    scrape_properties (lib := Sample.library) Sample.site [0; 1]
      [Sample.listing_url; Sample.other_url] [] = (out', inr records)
    /\ Forall2 (fun u record =>
                  exists page,
                    Sample.site u = inr page
                    /\ Spec.contributes (lib := Sample.library) page record)
         [Sample.listing_url; Sample.other_url] records.
Proof.
  apply (scrape_properties_in_dispatch_order Sample.library Sample.site
           [Sample.listing_url; Sample.other_url] []).
  exact sample_batch_digestible.
Defined.

(** ** find_locations *)

Section Locations.

Context {lib : Library}.

Lemma find_locations_run (net : Net) (query : string) (response : Response)
      (members : list (string * json)) (predictions : list json) (out : list string) :
  net (typeahead_url query) = inr response ->
  json_loads (text response) = Some (JObj members) ->
  dict_get "typeAheadLocations" members = Some (JArr predictions) ->
  find_locations net query out
  = for_each predictions
      (fun ids prediction =>
         id <- getitem prediction "locationIdentifier" ;;
         ret (ids ++ [id]))
      [] out.
Proof.
  intros Hnet Hjson Hkey. unfold find_locations, bind.
  rewrite Hnet. simpl. rewrite Hjson. simpl. rewrite Hkey. reflexivity.
Qed.

Lemma identifiers_loop (predictions ids : list json) :
  Forall2 Props.identifies predictions ids ->
  forall acc out,
    for_each predictions
      (fun ids prediction =>
         id <- getitem prediction "locationIdentifier" ;;
         ret (ids ++ [id]))
      acc out
    = (out, inr (acc ++ ids)).
Proof.
  induction 1 as [|p id ps ids (d & -> & Hd) _ IH]; intros acc out.
  - simpl. rewrite app_nil_r. reflexivity.
  - cbn [for_each]. unfold bind at 1. unfold bind at 1. simpl.
    rewrite Hd. simpl. rewrite IH, <- app_assoc. reflexivity.
Qed.

End Locations.

(** X10 -- When the type-ahead response is a JSON object whose
    [typeAheadLocations] is a list of objects that each carry a
    [locationIdentifier], [find_locations] fetches the tokenized URL once and
    returns the identifiers in the order of the response, printing nothing. *)
Theorem find_locations_in_response_order :
  forall (lib : Library) (net : Net) (query : string) (response : Response)
         (members : list (string * json)) (predictions ids : list json)
         (out : list string),
    net (typeahead_url query) = inr response ->
    json_loads (text response) = Some (JObj members) ->
    dict_get "typeAheadLocations" members = Some (JArr predictions) ->
    Forall2 Props.identifies predictions ids ->
    find_locations net query out = (out, inr ids).
Proof.
  intros lib net query response members predictions ids out Hnet Hjson Hkey Hids.
  rewrite (find_locations_run net query response members predictions out
             Hnet Hjson Hkey).
  apply (identifiers_loop predictions ids Hids [] out).
Qed.

(** X10, at the sample type-ahead answer. *)
Lemma find_locations_in_response_order_witness :
  find_locations (lib := Sample.library) SampleRun.site "cornwall" []
  = ([], inr [JStr "REGION^61294"; JStr "REGION^1"]).
Proof.
  refine (find_locations_in_response_order Sample.library SampleRun.site
            "cornwall" _
            [("typeAheadLocations",
              JArr [JObj [("locationIdentifier", JStr "REGION^61294")];
                    JObj [("locationIdentifier", JStr "REGION^1")]])]
            _ _ [] eq_refl _ eq_refl _).
  - vm_compute. reflexivity.
  - constructor; [eexists; split; reflexivity|].
    constructor; [eexists; split; reflexivity|]. constructor.
Defined.

(** X11 -- [find_locations] has no handler and no partial result.  A
    response that is not JSON raises the decode error; a JSON object without
    [typeAheadLocations] raises [KeyError]; and when one prediction of the
    list lacks [locationIdentifier] the call raises and returns none of the
    identifiers, not even those of the predictions before it. *)
Theorem find_locations_malformed_response :
  forall (lib : Library) (net : Net) (query : string) (response : Response)
         (out : list string),
    net (typeahead_url query) = inr response ->
    (json_loads (text response) = None ->
     find_locations net query out = (out, inl JSONDecodeError))
    /\ (forall members,
          json_loads (text response) = Some (JObj members) ->
          dict_get "typeAheadLocations" members = None ->
          find_locations net query out = (out, inl (KeyError "typeAheadLocations")))
    /\ (forall members predictions prediction d,
          json_loads (text response) = Some (JObj members) ->
          dict_get "typeAheadLocations" members = Some (JArr predictions) ->
          In prediction predictions ->
          prediction = JObj d ->
          dict_get "locationIdentifier" d = None ->
          exists out' e, find_locations net query out = (out', inl e)).
Proof.
  intros lib net query response out Hnet. split; [|split].
  - intros Hjson. unfold find_locations, bind. rewrite Hnet. simpl.
    rewrite Hjson. reflexivity.
  - intros members Hjson Hkey. unfold find_locations, bind. rewrite Hnet. simpl.
    rewrite Hjson. simpl. rewrite Hkey. reflexivity.
  - intros members predictions prediction d Hjson Hkey Hin -> Hid.
    rewrite (find_locations_run net query response members predictions out
               Hnet Hjson Hkey).
    apply for_each_fails with (x := JObj d); [|exact Hin].
    intros acc o. unfold bind. simpl. rewrite Hid. simpl. eauto.
Qed.

(** X11, at a type-ahead answer that is an empty object. *)
Lemma find_locations_malformed_response_witness :
  find_locations (lib := Sample.library)
    (fun u => inr (Sample.page u "{}")) "cornwall" []
  = ([], inl (KeyError "typeAheadLocations")).
Proof.
  refine (proj1 (proj2 (find_locations_malformed_response Sample.library
                          (fun u => inr (Sample.page u "{}")) "cornwall" _ []
                          eq_refl)) [] _ _).
  - vm_compute. reflexivity.
  - reflexivity.
Defined.

(** ** The tokenized path, for every query *)

Lemma replace_append (c : ascii) (a b : string) :
  Str.replace c "" (a ++ b) = (Str.replace c "" a ++ Str.replace c "" b)%string.
Proof.
  induction a as [|x a IH]; simpl.
  - reflexivity.
  - destruct (Ascii.eqb x c); simpl; rewrite IH; reflexivity.
Qed.

Lemma replace_lstrip (c : ascii) (s : string) :
  Str.replace c "" (Str.lstrip (Ascii.eqb c) s) = Str.replace c "" s.
Proof.
  induction s as [|a s IH]; simpl.
  - reflexivity.
  - rewrite (Ascii.eqb_sym c a). destruct (Ascii.eqb a c) eqn:Ha.
    + exact IH.
    + simpl. rewrite Ha. reflexivity.
Qed.

Lemma replace_rstrip (c : ascii) (s : string) :
  Str.replace c "" (Str.rstrip (Ascii.eqb c) s) = Str.replace c "" s.
Proof.
  induction s as [|a s IH]; [reflexivity|].
  cbn [Str.rstrip]. destruct (Str.rstrip (Ascii.eqb c) s) as [|b r] eqn:Hr.
  - rewrite (Ascii.eqb_sym c a). cbn [Str.replace] in *.
    destruct (Ascii.eqb a c) eqn:Ha.
    + simpl. exact IH.
    + cbn [Str.replace]. rewrite Ha, <- IH. reflexivity.
  - cbn [Str.replace] in *. rewrite IH. reflexivity.
Qed.

Lemma replace_tokens (l : list ascii) :
  forall k,
    Str.replace "/" ""
      (String.concat ""
         (map (fun ic : nat * ascii =>
                 String (snd ic) (if Nat.eqb (fst ic mod 2) 0 then "/" else ""))
            (Str.enumerate k l)))
    = Str.replace "/" "" (string_of_list_ascii l).
Proof.
  induction l as [|a l IH]; intros k.
  - reflexivity.
  - cbn [Str.enumerate map fst snd string_of_list_ascii].
    rewrite concat_empty_cons, replace_append, IH.
    destruct (Nat.eqb (k mod 2) 0); simpl; destruct (Ascii.eqb a "/"); reflexivity.
Qed.

(** X12 -- For every query, the tokenized path and the uppercased query
    differ by separators only: with every ["/"] taken out they are the same
    string.  Tokenizing loses no character of the query other than ["/"], and
    adds none. *)
Theorem tokenized_path_keeps_characters :
  forall (lib : Library) (query : string),
    Str.replace "/" "" (tokenized_path query)
    = Str.replace "/" "" (str_upper query).
Proof.
  intros lib query. unfold tokenized_path, Str.strip, tokenize_query.
  rewrite replace_rstrip, replace_lstrip, replace_tokens.
  rewrite string_of_list_ascii_of_string. reflexivity.
Qed.

Lemma replace_empty (c : ascii) (s : string) :
  Str.replace c "" s = "" <-> Props.all_chars (Ascii.eqb c) s = true.
Proof.
  induction s as [|a s IH]; simpl.
  - tauto.
  - rewrite (Ascii.eqb_sym c a). destruct (Ascii.eqb a c); simpl.
    + exact IH.
    + split; discriminate.
Qed.

Lemma rstrip_empty (p : ascii -> bool) (s : string) :
  Str.rstrip p s = "" <-> Props.all_chars p s = true.
Proof.
  induction s as [|a s IH]; simpl.
  - tauto.
  - destruct (Str.rstrip p s) eqn:Hr.
    + destruct (p a); simpl.
      * split; [intros _; apply IH; reflexivity | reflexivity].
      * split; discriminate.
    + split; [discriminate|]. intros H. apply andb_true_iff in H.
      destruct H as (_ & H). apply IH in H. discriminate.
Qed.

Lemma all_chars_lstrip (p : ascii -> bool) (s : string) :
  Props.all_chars p (Str.lstrip p s) = Props.all_chars p s.
Proof.
  induction s as [|a s IH]; simpl.
  - reflexivity.
  - destruct (p a) eqn:Ha; simpl.
    + exact IH.
    + rewrite Ha. reflexivity.
Qed.

(** X13 -- The tokenized path is empty exactly when the uppercased query
    consists of separators only, the empty query included; the URL then ends
    in two separators. *)
Theorem tokenized_path_empty :
  forall (lib : Library) (query : string),
    (tokenized_path query = ""
     <-> Props.all_chars (Ascii.eqb "/") (str_upper query) = true)
    /\ (Props.all_chars (Ascii.eqb "/") (str_upper query) = true ->
        typeahead_url query = "https://www.rightmove.co.uk/typeAhead/uknostreet//").
Proof.
  intros lib query.
  assert (H : tokenized_path query = ""
              <-> Props.all_chars (Ascii.eqb "/") (str_upper query) = true).
  { unfold tokenized_path, Str.strip.
    rewrite rstrip_empty, all_chars_lstrip, <- !replace_empty.
    unfold tokenize_query.
    rewrite replace_tokens, string_of_list_ascii_of_string. tauto. }
  split; [exact H|].
  intros Hall. unfold typeahead_url. rewrite (proj2 H Hall). reflexivity.
Qed.

(** X13, at a query of two separators. *)
Lemma tokenized_path_empty_witness :
  typeahead_url (lib := Sample.library) "//"
  = "https://www.rightmove.co.uk/typeAhead/uknostreet//".
Proof.
  apply (proj2 (tokenized_path_empty Sample.library "//")). reflexivity.
Defined.

(** ** scrape_search: how many pages, and what makes it fail *)

Lemma offsets_until_limit_closed (n : nat) :
  forall k : nat,
    offsets_until_limit
      (map (fun i => RESULTS_PER_PAGE + Z.of_nat i * RESULTS_PER_PAGE)%Z (seq k n))
    = map (fun i => RESULTS_PER_PAGE + Z.of_nat i * RESULTS_PER_PAGE)%Z
        (seq k (Nat.min n (41 - k))).
Proof.
  unfold RESULTS_PER_PAGE. induction n as [|n IH]; intros k.
  - reflexivity.
  - cbn [seq map offsets_until_limit]. unfold max_api_results.
    rewrite Z.geb_leb.
    destruct (Z.leb_spec 1000 (24 + Z.of_nat k * 24)) as [Hge|Hlt].
    + replace (41 - k) with 0 by lia. rewrite Nat.min_0_r. reflexivity.
    + rewrite IH. replace (41 - k) with (S (41 - S k)) by lia.
      rewrite <- Nat.succ_min_distr. reflexivity.
Qed.

(** X14 -- The offsets [scrape_search] requests are 0, 24, 48, ... in
    increasing order, one for each of [page_count total] pages, where
    [page_count total] is the number of pages of 24 that [total] results fill,
    at least 1 and at most 42. *)
Theorem requested_offsets_closed_form :
  forall total : Z,
    requested_offsets total
    = map (fun i => 24 * Z.of_nat i)%Z (seq 0 (Z.to_nat (Props.page_count total)))
    /\ Z.of_nat (List.length (requested_offsets total)) = Props.page_count total
    /\ (1 <= Props.page_count total <= 42)%Z.
Proof.
  intros total.
  assert (Hcount : Z.to_nat (Props.page_count total)
                   = S (Nat.min (Z.to_nat ((total - 24 + 24 - 1) / 24)) (41 - 0))).
  { unfold Props.page_count. Z.div_mod_to_equations. lia. }
  assert (Hlist : requested_offsets total
                  = map (fun i => 24 * Z.of_nat i)%Z
                      (seq 0 (Z.to_nat (Props.page_count total)))).
  { unfold requested_offsets, other_page_offsets, range.
    rewrite offsets_until_limit_closed, Hcount. cbn [seq map].
    f_equal. rewrite <- seq_shift, map_map. apply map_ext.
    intros i. unfold RESULTS_PER_PAGE. lia. }
  split; [exact Hlist|]. split.
  - rewrite Hlist, length_map, length_seq. unfold Props.page_count. lia.
  - unfold Props.page_count. lia.
Qed.

Lemma as_completed_nil {A : Type} (order : list nat) :
  as_completed order (@nil A) = [].
Proof.
  unfold as_completed. induction order as [|i order IH]; simpl.
  - reflexivity.
  - destruct i; exact IH.
Qed.

Lemma other_page_offsets_small (total : Z) :
  (total <= 24)%Z -> other_page_offsets total = [].
Proof.
  intros H. unfold other_page_offsets, range, RESULTS_PER_PAGE.
  replace (Z.to_nat ((total - 24 + 24 - 1) / 24)) with 0.
  - reflexivity.
  - Z.div_mod_to_equations. lia.
Qed.

Section Search.

Context {lib : Library}.

(** [scrape_search] once the first page is read. *)
Lemma scrape_search_run (net : Net) (order : list nat) (location_id : string)
      (out : list string) (first : Response) (members : list (string * json))
      (count : string) (total : Z) (properties : json) :
  net (make_url location_id 0) = inr first ->
  json_loads (content first) = Some (JObj members) ->
  dict_get "resultCount" members = Some (JStr count) ->
  Str.int (Str.replace "," "" count) = Some total ->
  dict_get "properties" members = Some properties ->
  scrape_search net order location_id out
  = merge_other_pages
      (as_completed order
         (map (fun offset => net (make_url location_id offset))
            (other_page_offsets total)))
      properties out.
Proof.
  intros Hnet Hjson Hcount Hint Hprops.
  unfold scrape_search, bind. rewrite Hnet. simpl. rewrite Hjson. simpl.
  rewrite Hcount. simpl. rewrite Hint. simpl. rewrite Hprops. reflexivity.
Qed.

End Search.

(** X15 -- [scrape_search] returns all pages or nothing: when the fetch of
    one of the later pages fails, then under every completion order the call
    raises, and the summaries of page 0 and of the pages already merged are
    lost with it. *)
Theorem scrape_search_page_failure :
  forall (lib : Library) (net : Net) (order : list nat) (location_id : string)
         (out : list string) (first : Response) (members : list (string * json))
         (count : string) (total : Z) (properties : json) (offset : Z) (e : exn),
    net (make_url location_id 0) = inr first ->
    json_loads (content first) = Some (JObj members) ->
    dict_get "resultCount" members = Some (JStr count) ->
    Str.int (Str.replace "," "" count) = Some total ->
    dict_get "properties" members = Some properties ->
    schedule (List.length (other_page_offsets total)) order ->
    In offset (other_page_offsets total) ->
    net (make_url location_id offset) = inl e ->
    exists out' e', scrape_search net order location_id out = (out', inl e').
Proof.
  intros lib net order location_id out first members count total properties
         offset e Hnet Hjson Hcount Hint Hprops Hs Hin Hfail.
  rewrite (scrape_search_run net order location_id out first members count total
             properties Hnet Hjson Hcount Hint Hprops).
  unfold merge_other_pages.
  apply for_each_fails with (x := inl e).
  - intros acc o. eexists. eexists. reflexivity.
  - assert (Hs' : schedule
                    (List.length
                       (map (fun offset => net (make_url location_id offset))
                          (other_page_offsets total))) order)
      by (rewrite length_map; exact Hs).
    apply (Permutation_in _ (Permutation_sym (as_completed_permutation _ _ Hs'))).
    rewrite <- Hfail.
    apply (in_map (fun offset => net (make_url location_id offset))). exact Hin.
Qed.

(** X15, at a search that declares 100 results on a site that serves three
    pages. *)
Lemma scrape_search_page_failure_witness :
  exists out' e',
    scrape_search (lib := Sample.library) (Sample.search_site "100")
      [3; 2; 1; 0] Sample.region [] = (out', inl e').
Proof.
  refine (scrape_search_page_failure Sample.library (Sample.search_site "100")
            [3; 2; 1; 0] Sample.region []
            (Sample.page (make_url Sample.region 0)
               (Sample.search_json "100" [1; 2]%Z))
            [("resultCount", JStr "100");
             ("properties", JArr [Sample.summary 1; Sample.summary 2])]
            "100" 100 (JArr [Sample.summary 1; Sample.summary 2]) 72 HTTPError
            eq_refl _ eq_refl eq_refl eq_refl _ _ eq_refl).
  - vm_compute. reflexivity.
  - exact (Permutation_rev [3; 2; 1; 0]).
  - vm_compute. tauto.
Defined.

(** X16 -- A search whose first page declares at most one page of results
    (24 or fewer, zero and negative counts included) fetches nothing more
    and returns what the first page holds under [properties], as it is and
    whatever it is. *)
Theorem scrape_search_single_page :
  forall (lib : Library) (net : Net) (order : list nat) (location_id : string)
         (out : list string) (first : Response) (members : list (string * json))
         (count : string) (total : Z) (properties : json),
    net (make_url location_id 0) = inr first ->
    json_loads (content first) = Some (JObj members) ->
    dict_get "resultCount" members = Some (JStr count) ->
    Str.int (Str.replace "," "" count) = Some total ->
    dict_get "properties" members = Some properties ->
    (total <= 24)%Z ->
    scrape_search net order location_id out = (out, inr properties).
Proof.
  intros lib net order location_id out first members count total properties
         Hnet Hjson Hcount Hint Hprops Hsmall.
  rewrite (scrape_search_run net order location_id out first members count total
             properties Hnet Hjson Hcount Hint Hprops).
  rewrite (other_page_offsets_small total Hsmall). cbn [map].
  rewrite as_completed_nil. reflexivity.
Qed.

(** X16, at a search that declares two results. *)
Lemma scrape_search_single_page_witness :
  scrape_search (lib := Sample.library) (Sample.search_site "2") [5; 0]
    Sample.region []
  = ([], inr (JArr [Sample.summary 1; Sample.summary 2])).
Proof.
  refine (scrape_search_single_page Sample.library (Sample.search_site "2")
            [5; 0] Sample.region []
            (Sample.page (make_url Sample.region 0)
               (Sample.search_json "2" [1; 2]%Z))
            [("resultCount", JStr "2");
             ("properties", JArr [Sample.summary 1; Sample.summary 2])]
            "2" 2 (JArr [Sample.summary 1; Sample.summary 2])
            eq_refl _ eq_refl eq_refl eq_refl _).
  - vm_compute. reflexivity.
  - lia.
Defined.

(** X17 -- The declared count must be a string of digits: when the first
    page has no [resultCount], [scrape_search] raises [KeyError]; when it
    holds anything but a string (a JSON number, say), [AttributeError]; when
    the string without its commas is not an integer literal, [ValueError].
    Each is raised before [properties] is read and before any later page is
    requested. *)
Theorem scrape_search_result_count_errors :
  forall (lib : Library) (net : Net) (order : list nat) (location_id : string)
         (out : list string) (first : Response) (members : list (string * json)),
    net (make_url location_id 0) = inr first ->
    json_loads (content first) = Some (JObj members) ->
    (dict_get "resultCount" members = None ->
     scrape_search net order location_id out = (out, inl (KeyError "resultCount")))
    /\ (forall value,
          dict_get "resultCount" members = Some value ->
          (forall s, value <> JStr s) ->
          scrape_search net order location_id out = (out, inl AttributeError))
    /\ (forall s,
          dict_get "resultCount" members = Some (JStr s) ->
          Str.int (Str.replace "," "" s) = None ->
          scrape_search net order location_id out = (out, inl ValueError)).
Proof.
  intros lib net order location_id out first members Hnet Hjson.
  split; [|split].
  - intros Hcount. unfold scrape_search, bind. rewrite Hnet. simpl.
    rewrite Hjson. simpl. rewrite Hcount. reflexivity.
  - intros value Hcount Hstr. unfold scrape_search, bind. rewrite Hnet. simpl.
    rewrite Hjson. simpl. rewrite Hcount. simpl.
    destruct value; try reflexivity. exfalso. apply (Hstr s). reflexivity.
  - intros s Hcount Hint. unfold scrape_search, bind. rewrite Hnet. simpl.
    rewrite Hjson. simpl. rewrite Hcount. simpl. rewrite Hint. reflexivity.
Qed.

(** X17, at a first page whose count is a JSON number. *)
Lemma scrape_search_result_count_errors_witness :
  scrape_search (lib := Sample.library)
    (fun u => inr (Sample.page u ("{" ++ Sample.q "resultCount" ++ ": 30}")))
    [] Sample.region []
  = ([], inl AttributeError).
Proof.
  refine (proj1 (proj2 (scrape_search_result_count_errors Sample.library
                          (fun u => inr (Sample.page u
                                           ("{" ++ Sample.q "resultCount" ++ ": 30}")))
                          [] Sample.region [] _ [("resultCount", JInt 30)]
                          eq_refl _)) (JInt 30) eq_refl _).
  - vm_compute. reflexivity.
  - intros s. discriminate.
Defined.

(** ** make_url *)

Lemma make_url_shape (location_id : string) (offset : Z) :
  make_url location_id offset
  = ("https://www.rightmove.co.uk/api/_search?areaSizeUnit=sqft&channel=BUY&currencyCode=GBP&includeSSTC=false&index="
       ++ quote_plus (Str.of_Z offset)
       ++ "&isFetching=false&locationIdentifier="
       ++ quote_plus location_id
       ++ "&numberOfPropertiesPerPage=24&radius=0.0&sortType=6&viewType=LIST")%string.
Proof. reflexivity. Qed.

Lemma rstrip_digits (s : string) :
  Forall (fun c => Str.isdigit c = true) (list_ascii_of_string s) ->
  Str.rstrip Str.int_space s = s.
Proof.
  induction s as [|c s IH]; intros H; [reflexivity|].
  inversion H; subst. cbn [Str.rstrip]. rewrite IH by assumption.
  rewrite digit_not_space by assumption. destruct s; reflexivity.
Qed.

Lemma int_digits_of_N (n : N) : Str.int_digits 0 false (Str.of_N n) = Some n.
Proof.
  rewrite of_N_nil_empty.
  rewrite int_digits_string_of_uint by (right; apply to_uint_not_nil).
  rewrite N.mul_0_l, N.add_0_r, <- DecimalPos.Unsigned.of_uint_alt.
  change (Pos.of_uint (N.to_uint n)) with (N.of_uint (N.to_uint n)).
  rewrite DecimalN.Unsigned.of_to. reflexivity.
Qed.

(** [int(str(z))] is [z], for every integer. *)
Lemma int_of_Z (z : Z) : Str.int (Str.of_Z z) = Some z.
Proof.
  destruct z as [|p|p].
  - apply (int_of_N 0).
  - apply (int_of_N (Npos p)).
  - unfold Str.of_Z, Str.int, Str.strip.
    pose proof (of_N_digits (Npos p)) as Hd.
    pose proof (of_N_not_empty (Npos p)) as Hne.
    change (Str.lstrip Str.int_space (String "-" (Str.of_N (N.pos p))))
      with (String "-" (Str.of_N (N.pos p))).
    cbn [Str.rstrip]. rewrite (rstrip_digits _ Hd).
    destruct (Str.of_N (N.pos p)) as [|c body] eqn:Hs; [contradiction|].
    change (Ascii.eqb "-" "-") with true. cbv iota.
    rewrite <- Hs, int_digits_of_N. reflexivity.
Qed.

Lemma quote_plus_char_plain (c : ascii) :
  Str.isdigit c || Ascii.eqb c "-" = true -> quote_plus_char c = String c "".
Proof.
  intros H.
  destruct c as [[] [] [] [] [] [] [] []]; try discriminate H; reflexivity.
Qed.

Lemma quote_plus_plain (s : string) :
  Props.all_chars (fun c => Str.isdigit c || Ascii.eqb c "-") s = true ->
  quote_plus s = s.
Proof.
  unfold quote_plus. induction s as [|c s IH]; intros H.
  - reflexivity.
  - cbn [Props.all_chars] in H. apply andb_true_iff in H. destruct H as (Hc & Hs).
    cbn [list_ascii_of_string map]. rewrite concat_empty_cons.
    rewrite (quote_plus_char_plain c Hc), (IH Hs). reflexivity.
Qed.

Lemma all_chars_forall (p : ascii -> bool) (s : string) :
  Forall (fun c => p c = true) (list_ascii_of_string s) ->
  Props.all_chars p s = true.
Proof.
  induction s as [|c s IH]; intros H; [reflexivity|].
  inversion H; subst. cbn [Props.all_chars].
  apply andb_true_iff. split; [assumption | apply IH; assumption].
Qed.

Lemma of_Z_plain (z : Z) :
  Props.all_chars (fun c => Str.isdigit c || Ascii.eqb c "-") (Str.of_Z z) = true.
Proof.
  assert (H : forall n,
             Props.all_chars (fun c => Str.isdigit c || Ascii.eqb c "-")
               (Str.of_N n) = true).
  { intros n. apply all_chars_forall.
    eapply Forall_impl; [|apply of_N_digits].
    intros c Hc. cbv beta in *. rewrite Hc. reflexivity. }
  destruct z; cbn [Str.of_Z Props.all_chars];
    first [apply H | rewrite H; reflexivity].
Qed.

Lemma count_char_append (c : ascii) (a b : string) :
  Props.count_char c (a ++ b)
  = Props.count_char c a + Props.count_char c b.
Proof.
  induction a as [|x a IH]; simpl.
  - reflexivity.
  - rewrite IH. lia.
Qed.

(** Up to its first separator a string is determined. *)
Lemma first_separator (c : ascii) (x y r s : string) :
  Props.count_char c x = 0 ->
  Props.count_char c y = 0 ->
  (x ++ String c r)%string = (y ++ String c s)%string ->
  x = y.
Proof.
  revert y. induction x as [|a x IH]; intros [|b y] Hx Hy H.
  - reflexivity.
  - simpl in H, Hy. inversion H; subst.
    rewrite Ascii.eqb_refl in Hy. discriminate.
  - simpl in H, Hx. inversion H; subst.
    rewrite Ascii.eqb_refl in Hx. discriminate.
  - simpl in H, Hx, Hy. inversion H; subst. f_equal.
    apply IH; try assumption.
    + destruct (Ascii.eqb b c); [discriminate | exact Hx].
    + destruct (Ascii.eqb b c); [discriminate | exact Hy].
Qed.

Lemma append_cancel_l (a x y : string) : (a ++ x = a ++ y)%string -> x = y.
Proof.
  induction a as [|c a IH]; simpl; intros H.
  - exact H.
  - inversion H. apply IH. assumption.
Qed.

Lemma quote_plus_char_clean (c : ascii) :
  Props.count_char "&" (quote_plus_char c) = 0
  /\ Props.count_char "=" (quote_plus_char c) = 0
  /\ Props.count_char "#" (quote_plus_char c) = 0
  /\ Props.count_char "?" (quote_plus_char c) = 0
  /\ Props.count_char " " (quote_plus_char c) = 0
  /\ Props.count_char "/" (quote_plus_char c) = 0.
Proof.
  destruct c as [[] [] [] [] [] [] [] []]; repeat split.
Qed.

Lemma quote_plus_clean (s : string) :
  Props.count_char "&" (quote_plus s) = 0
  /\ Props.count_char "=" (quote_plus s) = 0
  /\ Props.count_char "#" (quote_plus s) = 0
  /\ Props.count_char "?" (quote_plus s) = 0
  /\ Props.count_char " " (quote_plus s) = 0
  /\ Props.count_char "/" (quote_plus s) = 0.
Proof.
  unfold quote_plus. induction s as [|c s IH].
  - repeat split.
  - cbn [list_ascii_of_string map]. rewrite concat_empty_cons.
    rewrite !count_char_append.
    destruct (quote_plus_char_clean c) as (-> & -> & -> & -> & -> & ->).
    exact IH.
Qed.

(** X18 -- The search URLs of two different offsets are different, whatever
    the location identifiers: each page of a search has a URL of its own. *)
Theorem make_url_distinguishes_offsets :
  forall (location1 location2 : string) (offset1 offset2 : Z),
    offset1 <> offset2 ->
    make_url location1 offset1 <> make_url location2 offset2.
Proof.
  intros location1 location2 offset1 offset2 Hne H. apply Hne.
  rewrite !make_url_shape in H. apply append_cancel_l in H.
  rewrite !(quote_plus_plain _ (of_Z_plain _)) in H.
  change ("&isFetching=false&locationIdentifier=" ++ ?x)%string
    with (String "&" ("isFetching=false&locationIdentifier=" ++ x)) in H.
  apply first_separator in H.
  - pose proof (int_of_Z offset1) as H1. rewrite H, int_of_Z in H1.
    inversion H1. reflexivity.
  - rewrite <- (quote_plus_plain _ (of_Z_plain offset1)). apply quote_plus_clean.
  - rewrite <- (quote_plus_plain _ (of_Z_plain offset2)). apply quote_plus_clean.
Qed.

(** X18, at the first two pages of the sample search. *)
Lemma make_url_distinguishes_offsets_witness :
  make_url Sample.region 0 <> make_url Sample.region 24.
Proof.
  apply (make_url_distinguishes_offsets Sample.region Sample.region 0 24).
  discriminate.
Defined.

(** X19 -- Whatever the location identifier and the offset, the search URL
    has one ["?"], eleven ["="], ten ["&"] and neither ["#"] nor a blank: the
    identifier is quoted, so it can add no parameter to the query string nor
    cut it short. *)
Theorem make_url_parameters :
  forall (location_id : string) (offset : Z),
    Props.count_char "?" (make_url location_id offset) = 1
    /\ Props.count_char "=" (make_url location_id offset) = 11
    /\ Props.count_char "&" (make_url location_id offset) = 10
    /\ Props.count_char "#" (make_url location_id offset) = 0
    /\ Props.count_char " " (make_url location_id offset) = 0.
Proof.
  intros location_id offset. rewrite make_url_shape.
  rewrite !count_char_append.
  destruct (quote_plus_clean location_id) as (-> & -> & -> & -> & -> & _).
  destruct (quote_plus_clean (Str.of_Z offset)) as (-> & -> & -> & -> & -> & _).
  repeat split.
Qed.

(** ** run_save *)

Section Rows.

Context {lib : Library}.

Variable repr : json -> string.

(** A batch of one URL whose page is digestible returns its one record. *)
Lemma scrape_properties_single (net : Net) (u : string) (page : Response)
      (out : list string) :
  net u = inr page ->
  Spec.digestible page ->
  exists out' record,
    scrape_properties net [0] [u] out = (out', inr [record])
    /\ Spec.contributes page record.
Proof.
  intros Hnet Hd.
  destruct (digestible_contributes page Hd) as (record & Hc).
  destruct (scrape_step_contributes [] out Hc) as (out' & Hstep & _).
  exists out', record. split; [|exact Hc].
  unfold scrape_properties. cbn [map as_completed flat_map nth_error app].
  rewrite Hnet. cbn [for_each]. unfold bind. rewrite Hstep. reflexivity.
Qed.

Lemma feature_loop (net : Net) (ads : list json) :
  Forall (Props.listed repr net) ads ->
  forall acc out,
  exists out' rows,
    for_each ads (feature_step repr net) acc out = (out', inr (acc ++ rows))
    /\ Forall2 (Props.row_of repr net) ads rows.
Proof.
  induction 1 as [|ad ads (d & id & page & -> & Hid & Hnet & Hd) _ IH];
    intros acc out.
  - exists out, []. simpl. rewrite app_nil_r. split; [reflexivity | constructor].
  - destruct (scrape_properties_single net _ page out Hnet Hd)
      as (out1 & record & Hbatch & Hc).
    destruct (IH (acc ++ [record]) out1) as (out' & rows & Hloop & Hrows).
    assert (Hstep : feature_step repr net acc (JObj d) out
                    = (out1, inr (acc ++ [record]))).
    { unfold feature_step, bind. simpl. rewrite Hid. simpl.
      rewrite Hbatch. reflexivity. }
    exists out', (record :: rows). split.
    + cbn [for_each]. unfold bind at 1.
      rewrite Hstep, Hloop, <- app_assoc. reflexivity.
    + constructor; [|exact Hrows].
      exists d, id, page. auto.
Qed.

End Rows.

(** X20 -- [run_save] keeps the order of the search: when the lookup returns
    at least one location, the search of the first one returns a list, and
    the listing page of every result can be fetched and digested, the rows
    come one per search result, in the order of the search results, each the
    record its listing page contributes (all null for a page without the
    marker). *)
Theorem run_save_rows_in_search_order :
  forall (lib : Library) (repr : json -> string) (argv : list string)
         (net : Net) (order : list nat) (name : string)
         (out out1 out2 : list string) (location : json)
         (others ads : list json),
    nth_error argv 1 = Some name ->
    find_locations net name (out ++ [banner name])
    = (out1, inr (location :: others)) ->
    scrape_search net order (py_str repr location) out1 = (out2, inr (JArr ads)) ->
    Forall (Props.listed repr net) ads ->
    exists out' rows,
      run_save_rows repr argv net order out = (out', inr rows)
      /\ Forall2 (Props.row_of repr net) ads rows.
Proof.
  intros lib repr argv net order name out out1 out2 location others ads
         Hargv Hfind Hsearch Hads.
  destruct (feature_loop repr net ads Hads [] out2) as (out' & rows & Hloop & Hrows).
  exists out', rows. split; [|exact Hrows].
  unfold run_save_rows, bind. rewrite Hargv. simpl.
  rewrite Hfind. simpl. rewrite Hsearch. simpl. exact Hloop.
Qed.

(** X20, at the sample run. *)
Lemma run_save_rows_in_search_order_witness :
  exists out' rows,
    run_save_rows (lib := Sample.library) SampleRun.repr
      ["run_scrape.py"; "cornwall"] SampleRun.site [] [] = (out', inr rows)
    /\ Forall2 (Props.row_of (lib := Sample.library) SampleRun.repr SampleRun.site)
         [Sample.summary 1; Sample.summary 2] rows.
Proof.
  refine (run_save_rows_in_search_order Sample.library SampleRun.repr
            ["run_scrape.py"; "cornwall"] SampleRun.site [] "cornwall"
            [] _ _ (JStr "REGION^61294") [JStr "REGION^1"]
            [Sample.summary 1; Sample.summary 2] eq_refl _ _ _).
  - vm_compute. reflexivity.
  - vm_compute. reflexivity.
  - constructor; [|constructor; [|constructor]].
    + exists [("id", JInt 1)], (JInt 1), Sample.listing_page.
      repeat split. intros _. eexists. apply sample_listing_embeds.
    + exists [("id", JInt 2)], (JInt 2), Sample.other_page.
      repeat split. intros H. rewrite sample_other_no_marker in H. discriminate.
Defined.

(** X21 -- [run_save] indexes without checking.  Started without a
    command-line argument it raises [IndexError] before it prints or fetches
    anything; when the lookup finds no location it raises [IndexError] after
    the banner, and no search is made. *)
Theorem run_save_rows_index_errors :
  forall (lib : Library) (repr : json -> string) (argv : list string)
         (net : Net) (order : list nat) (out : list string),
    (nth_error argv 1 = None ->
     run_save_rows repr argv net order out = (out, inl IndexError))
    /\ (forall name out1,
          nth_error argv 1 = Some name ->
          find_locations net name (out ++ [banner name]) = (out1, inr []) ->
          run_save_rows repr argv net order out = (out1, inl IndexError)).
Proof.
  intros lib repr argv net order out. split.
  - intros Hargv. unfold run_save_rows, bind. rewrite Hargv. reflexivity.
  - intros name out1 Hargv Hfind. unfold run_save_rows, bind.
    rewrite Hargv. simpl. rewrite Hfind. reflexivity.
Qed.

(** X21, at a lookup that finds nothing. *)
Lemma run_save_rows_index_errors_witness :
  run_save_rows (lib := Sample.library) SampleRun.repr ["run_scrape.py"; "x"]
    (fun u => inr (Sample.page u ("{" ++ Sample.q "typeAheadLocations" ++ ": []}")))
    [] []
  = (["running rightmove scrape and saving results to results/x.csv directory"],
     inl IndexError).
Proof.
  refine (proj2 (run_save_rows_index_errors Sample.library SampleRun.repr
                   ["run_scrape.py"; "x"]
                   (fun u => inr (Sample.page u
                                    ("{" ++ Sample.q "typeAheadLocations" ++ ": []}")))
                   [] []) "x" _ eq_refl _).
  vm_compute. reflexivity.
Defined.

(** ** C5: parse_property and the state it touches *)

Lemma dict_get_set {V : Type} (k k' : string) (v : V) (d : list (string * V)) :
  dict_get k (dict_set k' v d)
  = if String.eqb k k' then Some v else dict_get k d.
Proof.
  induction d as [|[key value] d IH]; simpl.
  - destruct (String.eqb k k'); reflexivity.
  - destruct (String.eqb_spec k' key) as [->|Hne]; simpl.
    + destruct (String.eqb k key); reflexivity.
    + rewrite IH. destruct (String.eqb_spec k key) as [->|Hne'].
      * destruct (String.eqb_spec key k'); [congruence | reflexivity].
      * reflexivity.
Qed.

Lemma dict_get_pop {V : Type} (k key : string) (d : list (string * V)) (v : V) :
  dict_get k (Parser.dict_pop key d) = Some v -> dict_get k d = Some v.
Proof.
  unfold Parser.dict_pop. induction d as [|[key' value] d IH]; simpl.
  - discriminate.
  - destruct (String.eqb_spec key key') as [->|Hne]; simpl.
    + intros H. destruct (String.eqb_spec k key') as [->|Hne'].
      * exfalso. clear IH. induction d as [|[k2 v2] d IHd]; simpl in H.
        -- discriminate.
        -- destruct (String.eqb_spec key' k2) as [->|Hk]; simpl in H.
           ++ apply IHd. exact H.
           ++ destruct (String.eqb_spec key' k2); [contradiction|].
              apply IHd. exact H.
      * apply IH. exact H.
    + destruct (String.eqb k key'); [auto | exact IH].
Qed.

Lemma coherent_set (entries : list (string * JMESPath.expr)) (expression : string)
      (parsed : JMESPath.expr) :
  Parser.coherent entries ->
  JMESPath.compile expression = Some parsed ->
  Parser.coherent (dict_set expression parsed entries).
Proof.
  intros Hc Hp e cached. rewrite dict_get_set.
  destruct (String.eqb_spec e expression) as [->|Hne].
  - intros H. inversion H; subst. exact Hp.
  - apply Hc.
Qed.

Lemma coherent_pops (victims : list string) :
  forall entries : list (string * JMESPath.expr),
    Parser.coherent entries ->
    Parser.coherent
      (fold_left (fun entries key => Parser.dict_pop key entries) victims entries).
Proof.
  induction victims as [|key victims IH]; intros entries Hc.
  - exact Hc.
  - simpl. apply IH. intros e cached H. apply Hc.
    apply (dict_get_pop _ _ _ _ H).
Qed.

Section CacheProofs.

Variable Rng : Type.

Variable sample : Rng -> list string -> nat -> list string * Rng.

(** With a coherent cache [parse] returns what compiling returns, hit or
    miss, and leaves the cache coherent. *)
Lemma parse_coherent (expression : string) (s : Parser.state Rng) :
  Parser.coherent (Parser.cache s) ->
  exists s',
    Parser.parse sample expression s
    = (s', match JMESPath.compile expression with
           | Some parsed => inr parsed
           | None => inl JMESPathError
           end)
    /\ Parser.coherent (Parser.cache s').
Proof.
  intros Hc. unfold Parser.parse.
  destruct (dict_get expression (Parser.cache s)) as [cached|] eqn:Hget.
  - exists s. rewrite (Hc _ _ Hget). split; [reflexivity | exact Hc].
  - destruct (JMESPath.compile expression) as [parsed|] eqn:Hp.
    + eexists. split; [reflexivity|].
      pose proof (coherent_set _ _ _ Hc Hp) as Hset.
      destruct (Parser.MAX_SIZE <? _)%nat; [|exact Hset].
      unfold Parser.free_cache_entries.
      destruct (sample _ _ _) as [victims rng']. cbn [Parser.cache].
      apply coherent_pops. exact Hset.
    + exists s. split; [reflexivity | exact Hc].
Qed.

Lemma search_coherent (expression : string) (data : json) (s : Parser.state Rng)
      (out : list string) :
  Parser.coherent (Parser.cache s) ->
  exists s',
    Parser.search_with_cache sample expression data s
    = (s', snd (JMESPath.search expression data out))
    /\ Parser.coherent (Parser.cache s').
Proof.
  intros Hc. destruct (parse_coherent expression s Hc) as (s' & Hparse & Hc').
  exists s'. split; [|exact Hc'].
  unfold Parser.search_with_cache, JMESPath.search. rewrite Hparse.
  destruct (JMESPath.compile expression); reflexivity.
Qed.

Lemma project_rows_coherent (data : json) (rows : list (string * string)) :
  forall (results : PropertyResult) (s : Parser.state Rng) (out : list string),
    Parser.coherent (Parser.cache s) ->
    exists s',
      Parser.project_rows sample rows data results s
      = (s', snd (for_each rows
                    (fun results item =>
                       let (key, path) := item : string * string in
                       value <- JMESPath.search path data ;;
                       ret (dict_set key value results))
                    results out))
      /\ Parser.coherent (Parser.cache s').
Proof.
  induction rows as [|[key path] rows IH]; intros results s out Hc.
  - exists s. split; [reflexivity | exact Hc].
  - destruct (search_coherent path data s out Hc) as (s1 & Hsearch & Hc1).
    cbn [Parser.project_rows for_each]. rewrite Hsearch.
    unfold bind at 1. unfold bind at 1. unfold JMESPath.search in *.
    destruct (JMESPath.compile path) as [parsed|]; cbn [snd ret raise].
    + apply IH. exact Hc1.
    + exists s1. split; [reflexivity | exact Hc1].
Qed.

Lemma parse_property_with_cache_run (data : json) (s : Parser.state Rng) :
  Parser.coherent (Parser.cache s) ->
  exists s',
    Parser.parse_property_with_cache sample data s = (s', inr (Spec.project data))
    /\ Parser.coherent (Parser.cache s').
Proof.
  intros Hc.
  destruct (project_rows_coherent data parse_map [] s [] Hc) as (s' & Hrun & Hc').
  exists s'. split; [|exact Hc'].
  unfold Parser.parse_property_with_cache. rewrite Hrun.
  change (for_each parse_map _ [] []) with (parse_property data []).
  rewrite parse_property_run. reflexivity.
Qed.

End CacheProofs.

(** The cache is state the call really writes: from an empty cache the 27
    expressions of the table are in it afterwards. *)
Example parse_property_fills_the_cache :
  List.length
    (Parser.cache
       (fst (Parser.parse_property_with_cache
               (fun (r : unit) keys k => (firstn k keys, r))
               JNull {| Parser.cache := []; Parser.rng := tt |})))
  = 27.
Proof. vm_compute. reflexivity. Qed.

(** And state the result depends on: a cache that holds a wrong entry for
    ["id"] changes the field. *)
Example parse_property_reads_the_cache :
  exists s' record,
    Parser.parse_property_with_cache
      (fun (r : unit) keys k => (firstn k keys, r))
      (JObj [("id", JInt 7); ("bedrooms", JInt 2)])
      {| Parser.cache := [("id", JMESPath.Field "bedrooms")]; Parser.rng := tt |}
    = (s', inr record)
    /\ dict_get "id" record = Some (JInt 2).
Proof. eexists. eexists. split; [vm_compute; reflexivity | reflexivity]. Qed.

(** C5 -- [parse_property] is deterministic and has no observable effect:
    its record depends on the table and on the object alone.  Whatever
    jmespath's expression cache holds (any coherent cache, any state of the
    random eviction) and whatever was printed before, two invocations on the
    same object return the same record, also when the second runs on the
    state the first left behind; nothing is printed; and the one thing the
    call writes, the cache, stays coherent, so that no later search of any
    expression on any value can tell whether [parse_property] has run. *)
Theorem parse_property_deterministic :
  forall (Rng : Type) (sample : Rng -> list string -> nat -> list string * Rng)
         (data : json) (s1 s2 : Parser.state Rng) (out1 out2 : list string),
    Parser.coherent (Parser.cache s1) ->
    Parser.coherent (Parser.cache s2) ->
    exists (record : PropertyResult) (s1' s2' s1'' : Parser.state Rng),
      Parser.parse_property_with_cache sample data s1 = (s1', inr record)
      /\ Parser.parse_property_with_cache sample data s2 = (s2', inr record)
      /\ Parser.parse_property_with_cache sample data s1' = (s1'', inr record)
      /\ parse_property data out1 = (out1, inr record)
      /\ parse_property data out2 = (out2, inr record)
      /\ Parser.coherent (Parser.cache s1')
      /\ (forall expression value,
            snd (Parser.search_with_cache sample expression value s1')
            = snd (Parser.search_with_cache sample expression value s1)).
Proof.
  intros Rng sample data s1 s2 out1 out2 Hc1 Hc2.
  destruct (parse_property_with_cache_run Rng sample data s1 Hc1)
    as (s1' & Hrun1 & Hc1').
  destruct (parse_property_with_cache_run Rng sample data s2 Hc2)
    as (s2' & Hrun2 & _).
  destruct (parse_property_with_cache_run Rng sample data s1' Hc1')
    as (s1'' & Hrun1' & _).
  exists (Spec.project data), s1', s2', s1''.
  repeat (split; [first [assumption | apply parse_property_run]|]).
  intros expression value.
  destruct (search_coherent Rng sample expression value s1' [] Hc1')
    as (t' & -> & _).
  destruct (search_coherent Rng sample expression value s1 [] Hc1)
    as (t & -> & _).
  reflexivity.
Qed.

(** C5, at an empty cache and at a cache that already holds ["id"]. *)
Lemma parse_property_deterministic_witness :
  exists (record : PropertyResult) (s1' s2' : Parser.state unit),
    Parser.parse_property_with_cache (fun (r : unit) keys k => (firstn k keys, r))
      (JObj [("id", JInt 7)]) {| Parser.cache := []; Parser.rng := tt |}
    = (s1', inr record)
    /\ Parser.parse_property_with_cache (fun (r : unit) keys k => (firstn k keys, r))
         (JObj [("id", JInt 7)])
         {| Parser.cache := [("id", JMESPath.Field "id")]; Parser.rng := tt |}
       = (s2', inr record).
Proof.
  destruct (parse_property_deterministic unit
              (fun (r : unit) keys k => (firstn k keys, r))
              (JObj [("id", JInt 7)])
              {| Parser.cache := []; Parser.rng := tt |}
              {| Parser.cache := [("id", JMESPath.Field "id")]; Parser.rng := tt |}
              [] [])
    as (record & s1' & s2' & _ & H1 & H2 & _).
  - intros expression cached H. discriminate H.
  - intros expression cached H. cbn [Parser.cache dict_get] in H.
    destruct (String.eqb_spec expression "id") as [->|]; [|discriminate H].
    inversion H. reflexivity.
  - exists record, s1', s2'. split; assumption.
Defined.

(** ** The declared count and the separators [int] refuses *)

(** A count followed by the unit separator U+001F is not an integer for
    [int], although [str.strip] would take the separator off: the search
    raises [ValueError]. *)
Example scrape_search_refuses_separator_in_count :
  Str.strip Str.isspace (String "5" (String (ascii_of_nat 31) "")) = "5"
  /\ Str.int (String "5" (String (ascii_of_nat 31) "")) = None
  /\ scrape_search (lib := Sample.library)
       (Sample.search_site (String "5" (String (ascii_of_nat 31) "")))
       [] Sample.region []
     = ([], inl ValueError).
Proof. split; [reflexivity|]. split; [reflexivity|]. vm_compute. reflexivity. Qed.
